(** * invoice_bot: the upload orchestration engine

    A shallow embedding of [invoice_bot/portal_uploader.py] and
    [invoice_bot/main.py].  Coroutines become state-passing functions that
    either return a value or raise a Python exception; every call into the
    browser driver, every [asyncio.sleep] and every log line is recorded in a
    trace, so that statements about "how often" and "in which order" are
    statements about that trace. *)

From Stdlib Require Import ZArith String Ascii List Lia.
From stdpp Require Import base strings gmap list pretty.
From Equations Require Import Equations.

Local Open Scope Z_scope.

(* ===================================================================== *)
(** ** Python exceptions *)
(* ===================================================================== *)

(** The classes of [Exception] the two modules can see.  [TimeoutError] in
    [portal_uploader.py] is the one imported from [playwright.async_api]
    (line 8), which shadows the builtin of the same name; a builtin or
    [asyncio] timeout is an [OtherException "TimeoutError"].  Signals that
    derive from [BaseException] only (cancellation, keyboard interrupt) are
    outside the model. *)
Inductive exc_class :=
| PlaywrightTimeoutError
| PlaywrightError
| NameError
| KeyError
| ValueError
| TypeError
| OverflowError
| OtherException (name : string).

(** An exception instance: its class and [str(e)]. *)
Record exn := Exn { exc_type : exc_class; exc_str : string }.

(** [type(e).__name__] *)
Definition type_name (c : exc_class) : string :=
  match c with
  | PlaywrightTimeoutError => "TimeoutError"
  | PlaywrightError => "Error"
  | NameError => "NameError"
  | KeyError => "KeyError"
  | ValueError => "ValueError"
  | TypeError => "TypeError"
  | OverflowError => "OverflowError"
  | OtherException name => name
  end.

(** [isinstance(e, TimeoutError)] with the module's [TimeoutError]. *)
Definition isinstance_TimeoutError (e : exn) : bool :=
  match exc_type e with
  | PlaywrightTimeoutError => true
  | _ => false
  end.

(** [sub in s] on Python strings. *)
Fixpoint str_in (sub s : string) : bool :=
  String.prefix sub s ||
  match s with
  | EmptyString => false
  | String _ s' => str_in sub s'
  end.

(** The test of line 130. *)
Definition is_retryable (e : exn) : bool :=
  isinstance_TimeoutError e || str_in "429" (exc_str e) || str_in "Rate Limit" (exc_str e).

(* ===================================================================== *)
(** ** Input rows, outcomes, tables *)
(* ===================================================================== *)

(** A value of a DataFrame cell as pandas parses it. *)
Inductive cell :=
| CStr (s : string)
| CInt (z : Z)
| CFloat (repr : string)
| CNone.

(** [dict(row)]: column name to cell. *)
Abbreviation row := (gmap string cell).

Record DataFrame := { df_columns : list string; df_rows : list row }.

Inductive status := OK | SKIP | ERROR.

(** The dict [upload_row] returns; its four keys are fixed. *)
Record outcome := {
  o_status : status;
  o_portal_id : option string;
  o_error_msg : option string;
  o_processed_ts : string
}.

(* ===================================================================== *)
(** ** Effects *)
(* ===================================================================== *)

Definition page := nat.

(** Calls that leave the two modules: the Playwright driver, the file
    system, the environment and pandas. *)
Inductive op :=
| async_playwright_start
| chromium_launch (headless : bool)
| browser_new_context (storage_state : option string)
| context_new_page
| context_storage_state (path : string)
| context_close
| browser_close
| playwright_stop
| page_goto (p : page) (url : string)
| locator_count (p : page) (selector : string)
| locator_evaluate (p : page) (selector expression : string)
| page_fill (p : page) (selector value : string)
| page_set_input_files (p : page) (selector files : string)
| page_click (p : page) (selector : string)
| page_wait_for_selector (p : page) (selector : string) (timeout : Z)
| locator_inner_text (p : page) (selector : string)
| page_close (p : page)
| path_exists (path : string)
| os_getenv (name : string)
| read_csv (path : string)
| to_csv (path : string) (table : DataFrame).

(** What each call answers when it does not raise. *)
Definition ans (o : op) : Type :=
  match o with
  | context_new_page => page
  | locator_count _ _ => Z
  | locator_evaluate _ _ _ => string
  | locator_inner_text _ _ => string
  | path_exists _ => bool
  | os_getenv _ => option string
  | read_csv _ => DataFrame
  | _ => unit
  end.

Inductive level := INFO | WARNING | ERROR_LEVEL.

Inductive event :=
| EvOp (o : op)
| EvSleep (ms : Z)          (* asyncio.sleep(ms / 1000) *)
| EvLog (lv : level) (tag : string).

Section Machine.
Context {W : Type}.

(** The world outside the program, and what the program did to it. *)
Record state := State { world : W; trace : list event }.

(** A coroutine run to completion: it returns or raises. *)
Definition M (A : Type) : Type := state -> (exn + A) * state.

Definition ret {A} (a : A) : M A := fun s => (inr a, s).
Definition raise {A} (e : exn) : M A := fun s => (inl e, s).
Definition bind {A B} (m : M A) (k : A -> M B) : M B :=
  fun s => match m s with
           | (inr a, s') => k a s'
           | (inl e, s') => (inl e, s')
           end.

Definition emit (ev : event) : M unit :=
  fun s => (inr tt, {| world := world s; trace := trace s ++ [ev] |}).

Definition logger (lv : level) (tag : string) : M unit := emit (EvLog lv tag).
Definition asyncio_sleep (ms : Z) : M unit := emit (EvSleep ms).

(** [try: body / except Exception as e: handler e] *)
Definition try_except {A} (body : M A) (handler : exn -> M A) : M A :=
  fun s => match body s with
           | (inl e, s') => handler e s'
           | r => r
           end.

(** [try: body / finally: fin].  An exception of [fin] replaces whatever
    [body] returned or raised. *)
Definition try_finally {A} (body : M A) (fin : M unit) : M A :=
  fun s => let (r, s') := body s in
           match fin s' with
           | (inl e, s'') => (inl e, s'')
           | (inr _, s'') => (r, s'')
           end.
End Machine.

Arguments state : clear implicits.
Arguments M : clear implicits.

Declare Scope py_scope.
Delimit Scope py_scope with py.
Notation "'let*' x ':=' m 'in' k" := (bind m (fun x => k))
  (at level 10, x name, m at level 100, k at level 200) : py_scope.
Notation "m '>>' k" := (bind m (fun _ => k))
  (at level 100, k at level 200, right associativity) : py_scope.
Local Open Scope py_scope.

Definition inspect {A} (a : A) : {b | a = b} := exist _ a eq_refl.

(* ===================================================================== *)
(** ** PortalUploader._retry_with_backoff (lines 103-144) *)
(* ===================================================================== *)

(** [raise last_exception] of line 144; raising [None] is a [TypeError]. *)
Definition raise_last {W A} (last_exception : option exn) : M W A :=
  match last_exception with
  | Some e => raise e
  | None => raise (Exn TypeError "exceptions must derive from BaseException")
  end.

(** Lines 121-124: the body of the [try], in the iteration entered with
    [retries]. *)
Definition attempt {W A} (func : M W A) (retries : Z) : M W A :=
  (if 0 <? retries then logger WARNING "Retry attempt" else ret tt) >> func.

(** [a / b] on positive integers is a float: CPython rounds the quotient to
    the nearest double and raises [OverflowError] when that is beyond the
    largest one, [2^1024 - 2^971]; the quotients that round beyond it are
    those from [2^1024 - 2^970] on. *)
Definition true_division_overflows (a b : Z) : bool :=
  (2 ^ 1024 - 2 ^ 970) * b <=? a.

Definition division_overflow : exn :=
  Exn OverflowError "integer division result too large for a float".

(** Lines 133-136, with [retries] already incremented.  The f-string of
    line 135 evaluates [wait_time / 1000] before anything is logged; the
    delay is recorded in milliseconds. *)
Definition back_off {W} (retries : Z) : M W unit :=
  let wait_time := 2 ^ retries * 1000 in
  if true_division_overflows wait_time 1000 then raise division_overflow
  else logger WARNING "Rate limit detected, backing off" >>
       asyncio_sleep wait_time.

(** Line 138 *)
Definition log_exhausted {W} : M W unit :=
  logger ERROR_LEVEL "Max retries exceeded".

(** The [while retries <= max_retries] loop, entered with the current values
    of [retries] and [last_exception]. *)
Equations? retry_loop {W A} (func : M W A) (max_retries retries : Z)
    (last_exception : option exn) (s : state W) : (exn + A) * state W
    by wf (Z.to_nat (max_retries + 1 - retries)) lt :=
  retry_loop func max_retries retries last_exception s
    with inspect (retries <=? max_retries) := {
    | exist _ true Hle =>
        match attempt func retries s with
        | (inr v, s1) => (inr v, s1)                      (* return await func() *)
        | (inl e, s1) =>
            if is_retryable e then
              if retries + 1 <=? max_retries then
                match back_off (retries + 1) s1 with
                | (inr _, s2) => retry_loop func max_retries (retries + 1) (Some e) s2
                | (inl e', s2) => (inl e', s2)            (* leaves the handler *)
                end
              else (inl e, snd (log_exhausted s1))              (* raise *)
            else (inl e, s1)                              (* raise *)
        end
    | exist _ false Hgt => raise_last last_exception s }.
Proof. apply Z.leb_le in Hle. lia. Qed.

Definition _retry_with_backoff {W A} (func : M W A) (max_retries : Z) : M W A :=
  retry_loop func max_retries 0 None.

(* ===================================================================== *)
(** ** The platform the program runs on *)
(* ===================================================================== *)

(** Everything the two modules take from outside: the behaviour of the
    driver, the file system, the environment and pandas ([driver]), the
    clock, the value of [PORTAL_BASE_URL], and the Python conversions of
    cell values whose result depends on floating point or on the file
    system. *)
Class Platform := {
  World : Type;
  driver : forall o : op, World -> (exn + ans o) * World;
  now_isoformat : World -> string;        (* datetime.now().isoformat() *)
  now_strftime : World -> string;         (* datetime.now().strftime("%Y%m%d-%H%M%S") *)
  BASE_URL : string;
  py_str : cell -> string;                (* str(x) *)
  py_bool : cell -> bool;                 (* truth value of x *)
  format_price : cell -> exn + string;    (* format(float(x), '.2f') *)
  resolve_path : cell -> exn + string     (* str(Path(x).resolve()) *)
}.

(** The names a module binds at import time that the claims depend on.
    [portal_uploader.py] imports [asyncio], [os], [time], [Path], the typing
    names, [logger] and the Playwright names (lines 1-8): [datetime] is not
    among them. *)
Record namespace := { binds_datetime : bool }.

Definition portal_uploader_namespace : namespace := {| binds_datetime := false |}.

Definition TODO_SELECTOR_LOGIN_URL := "https://placeholder-portal.example.com/login".
Definition TODO_SELECTOR_USERNAME := "input[name='username']".
Definition TODO_SELECTOR_PASSWORD := "input[name='password']".
Definition TODO_SELECTOR_SIGNIN_BUTTON := "button:has-text('Sign in')".
Definition TODO_SELECTOR_DASHBOARD := "text=Dashboard".
Definition TODO_SELECTOR_SERVICE_ID := "input[name='service_id']".
Definition TODO_SELECTOR_PRICE := "input[name='price']".
Definition TODO_SELECTOR_INVOICE_FILE := "input[type='file']".
Definition TODO_SELECTOR_DESCRIPTION := "textarea[name='description']".
Definition TODO_SELECTOR_INVOICE_DATE := "input[name='invoice_date']".
Definition TODO_SELECTOR_SUBMIT_BUTTON := "button:has-text('Submit')".
Definition TODO_SELECTOR_SUCCESS := "text=Success".
Definition TODO_SELECTOR_PORTAL_ID := "[data-portal-id]".
Definition TODO_SELECTOR_SERVICE_TABLE := "table".
Definition AUTH_FILE := "auth.json".

(** The attributes of a [PortalUploader] object; a handle is [true] once it
    has been assigned. *)
Record uploader := {
  headless : bool;
  playwright : bool;
  browser : bool;
  context : bool
}.

Section PortalUploader.
Context {platform : Platform}.
Variable ns : namespace.

(** One awaited call into the outside world, recorded in the trace. *)
Definition perform (o : op) : M World (ans o) :=
  fun s => let (r, w') := driver o (world s) in
           (r, {| world := w'; trace := trace s ++ [EvOp o] |}).

(** A pure computation that may raise. *)
Definition lift {A} (r : exn + A) : M World A :=
  fun s => (r, s).

(** [datetime.now().isoformat()] evaluated in the module: a global name
    that is not bound raises [NameError]. *)
Definition datetime_now_isoformat : M World string :=
  fun s => if binds_datetime ns
           then (inr (now_isoformat (world s)), s)
           else (inl (Exn NameError "name 'datetime' is not defined"), s).

(** [row[key]] *)
Definition getitem (r : row) (key : string) : M World cell :=
  match r !! key with
  | Some v => ret v
  | None => raise (Exn KeyError ("'" +:+ key +:+ "'"))
  end.

(** [key in row and row[key]] *)
Definition present_and_true (r : row) (key : string) : bool :=
  match r !! key with
  | Some v => py_bool v
  | None => false
  end.

(** [__init__] *)
Definition PortalUploader (headless : bool) : uploader :=
  {| headless := headless; playwright := false; browser := false; context := false |}.

(** [_login] (lines 74-101) *)
Definition _login : M World unit :=
  let* username := perform (os_getenv "PORTAL_USERNAME") in
  let* password := perform (os_getenv "PORTAL_PASSWORD") in
  match username, password with
  | Some (String a u), Some (String b p) =>
      let* page := perform context_new_page in
      try_finally
        (perform (page_goto page TODO_SELECTOR_LOGIN_URL) >>
         perform (page_fill page TODO_SELECTOR_USERNAME (String a u)) >>
         perform (page_fill page TODO_SELECTOR_PASSWORD (String b p)) >>
         perform (page_click page TODO_SELECTOR_SIGNIN_BUTTON) >>
         perform (page_wait_for_selector page TODO_SELECTOR_DASHBOARD 8000) >>
         logger INFO "[AUTH] Login successful" >>
         perform (context_storage_state AUTH_FILE) >>
         logger INFO "[AUTH] Saved authentication state")
        (perform (page_close page))
  | _, _ => raise (Exn ValueError
              "Missing login credentials. Set PORTAL_USERNAME and PORTAL_PASSWORD environment variables.")
  end.

(** [__aenter__] (lines 49-63); returns [self] with its handles set. *)
Definition __aenter__ (self : uploader) : M World uploader :=
  perform async_playwright_start >>
  perform (chromium_launch (headless self)) >>
  let* found := perform (path_exists AUTH_FILE) in
  (if found
   then logger INFO "[AUTH] Using saved cookies from previous session" >>
        perform (browser_new_context (Some AUTH_FILE))
   else logger INFO "[AUTH] No saved session found, performing fresh login" >>
        perform (browser_new_context None) >>
        _login) >>
  ret {| headless := headless self; playwright := true; browser := true; context := true |}.

(** [__aexit__] (lines 65-72) *)
Definition __aexit__ (self : uploader) : M World unit :=
  (if context self then perform context_close else ret tt) >>
  (if browser self then perform browser_close else ret tt) >>
  (if playwright self then perform playwright_stop else ret tt).

(** [async with PortalUploader(...) as uploader: body].  [__aexit__] is
    not entered when [__aenter__] raises; it returns [None], so an
    exception of the body is re-raised after it. *)
Definition async_with {A} (self : uploader) (body : uploader -> M World A) : M World A :=
  let* entered := __aenter__ self in
  try_finally (body entered) (__aexit__ entered).

(** The nested [do_upload] of [upload_row] (lines 160-216). *)
Definition do_upload (pg : page) (r : row) : M World outcome :=
  perform (page_goto pg (BASE_URL +:+ "/new-service")) >>
  let* sid := getitem r "service_id" in
  let service_id := py_str sid in
  let* duplicate_check :=
    perform (locator_count pg (TODO_SELECTOR_SERVICE_TABLE +:+ " >> text=" +:+ service_id)) in
  if 0 <? duplicate_check then
    let* existing_id :=
      try_except
        (** line 171 awaits the [Locator] that [page.locator] returns,
            which is not awaitable *)
        (raise (A:=unit) (Exn TypeError "object Locator can't be used in 'await' expression") >>
         perform (locator_evaluate pg
                    (TODO_SELECTOR_SERVICE_TABLE +:+ " >> text=" +:+ service_id)
                    "el => el.closest('tr').querySelector('[data-portal-id]').textContent"))
        (fun _ => ret "unknown") in
    logger INFO "[ROW_SKIP]" >>
    let* ts := datetime_now_isoformat in
    ret {| o_status := SKIP; o_portal_id := Some existing_id;
           o_error_msg := None; o_processed_ts := ts |}
  else
    getitem r "invoice_path" >>
    logger INFO "[ROW_START]" >>
    perform (page_fill pg TODO_SELECTOR_SERVICE_ID service_id) >>
    let* price := getitem r "price" in
    let* price_2f := lift (format_price price) in
    perform (page_fill pg TODO_SELECTOR_PRICE price_2f) >>
    let* ip := getitem r "invoice_path" in
    let* invoice_path := lift (resolve_path ip) in
    perform (page_set_input_files pg TODO_SELECTOR_INVOICE_FILE invoice_path) >>
    (if present_and_true r "description"
     then let* d := getitem r "description" in
          perform (page_fill pg TODO_SELECTOR_DESCRIPTION (py_str d))
     else ret tt) >>
    (if present_and_true r "invoice_date"
     then let* d := getitem r "invoice_date" in
          perform (page_fill pg TODO_SELECTOR_INVOICE_DATE (py_str d))
     else ret tt) >>
    perform (page_click pg TODO_SELECTOR_SUBMIT_BUTTON) >>
    perform (page_wait_for_selector pg TODO_SELECTOR_SUCCESS 5000) >>
    let* portal_id := perform (locator_inner_text pg TODO_SELECTOR_PORTAL_ID) in
    let* ts := datetime_now_isoformat in
    ret {| o_status := OK; o_portal_id := Some portal_id;
           o_error_msg := None; o_processed_ts := ts |}.

(** [upload_row] (lines 146-241) *)
Definition upload_row (r : row) : M World outcome :=
  let* pg := perform context_new_page in
  try_finally
    (try_except
       (let* result := _retry_with_backoff (do_upload pg r) 3 in
        (match o_status result with
         | OK => getitem r "service_id" >> logger INFO "[ROW_SUCCESS]"
         | _ => ret tt
         end) >>
        ret result)
       (fun e =>
          let error_msg := type_name (exc_type e) +:+ ": " +:+ exc_str e in
          getitem r "service_id" >>
          logger ERROR_LEVEL "[ROW_ERROR]" >>
          let* ts := datetime_now_isoformat in
          ret {| o_status := ERROR; o_portal_id := None;
                 o_error_msg := Some error_msg; o_processed_ts := ts |}))
    (perform (page_close pg)).
End PortalUploader.

(* ===================================================================== *)
(** ** main.py *)
(* ===================================================================== *)

Definition REQUIRED_COLUMNS : list string := ["service_id"; "price"; "invoice_path"].
Definition DEFAULT_CONCURRENCY : Z := 4.

(** The row tasks between two completions.  A task is the position of its
    row together with the row. *)
Record pool := {
  sem_value : Z;                    (* semaphore._value *)
  waiters : list (nat * row);       (* blocked in [async with semaphore], first in first out *)
  running : list (nat * row);       (* past the semaphore, inside upload_row *)
  slots : list (option outcome)     (* the result of each task, by position *)
}.

(** [asyncio.Semaphore(value)] *)
Definition Semaphore {W} (value : Z) : M W Z :=
  if value <? 0 then raise (Exn ValueError "Semaphore initial value must be >= 0")
  else ret value.

(** Entering [async with semaphore] in [process_row]: the task goes on when
    the semaphore is not locked and waits in line otherwise. *)
Definition semaphore_acquire (t : nat * row) (p : pool) : pool :=
  match waiters p with
  | [] =>
      if 0 <? sem_value p
      then {| sem_value := sem_value p - 1; waiters := []; running := running p ++ [t];
              slots := slots p |}
      else {| sem_value := sem_value p; waiters := [t]; running := running p;
              slots := slots p |}
  | _ => {| sem_value := sem_value p; waiters := waiters p ++ [t]; running := running p;
            slots := slots p |}
  end.

(** Leaving [async with semaphore]: the value goes up by one and the first
    waiter, if any, takes it at once. *)
Definition semaphore_release (p : pool) : pool :=
  match waiters p with
  | [] => {| sem_value := sem_value p + 1; waiters := []; running := running p;
             slots := slots p |}
  | t :: ts => {| sem_value := sem_value p; waiters := ts; running := running p ++ [t];
                  slots := slots p |}
  end.

(** The element of [l] at position [k mod length l], and the others. *)
Definition pick {A} (k : nat) (l : list A) : option (A * list A) :=
  let i := (k mod length l)%nat in
  match l !! i with
  | Some x => Some (x, take i l ++ drop (S i) l)
  | None => None
  end.

(** What [await asyncio.gather(...)] gives its caller. *)
Inductive gathered :=
| Results (results : list outcome)
| Exception (e : exn)
| Pending.                          (* no task can make progress: never resumed *)

Lemma pick_length {A} k (l : list A) x rest :
  pick k l = Some (x, rest) -> length l = S (length rest).
Proof.
  unfold pick. destruct (l !! (k mod length l)%nat) eqn:E; [|discriminate].
  intros [= <- <-]. apply lookup_lt_Some in E.
  rewrite length_app, length_take, length_drop. lia.
Qed.

Section Orchestrator.
Context {platform : Platform}.

(** [process_row]'s body once it holds the semaphore. *)
Variable upload : row -> M World outcome.

(** The tasks of [asyncio.gather], from the moment all of them have reached
    the semaphore.  A task past the semaphore is run to completion when the
    schedule picks it: the order in which tasks complete is arbitrary, the
    interleaving of the driver calls of different tasks is not modelled.
    The first exception of a task is what [gather] raises, and the tasks
    that are still running then are not followed further; when every task
    is done, the results are read off the tasks in the order they were
    passed. *)
Equations? run_tasks (schedule : list nat) (p : pool) (s : state World)
    : gathered * state World
    by wf (length (running p) + length (waiters p))%nat lt :=
  run_tasks schedule p s with inspect (pick (hd 0%nat schedule) (running p)) := {
    | exist _ None _ =>
        match waiters p with
        | [] => (Results (omap id (slots p)), s)
        | _ => (Pending, s)
        end
    | exist _ (Some ((i, r), rest)) Hpick =>
        match upload r s with
        | (inl e, s') => (Exception e, s')
        | (inr o, s') =>
            run_tasks (tl schedule)
              (semaphore_release
                 {| sem_value := sem_value p; waiters := waiters p; running := rest;
                    slots := <[i := Some o]> (slots p) |})
              s'
        end }.
Proof.
  apply pick_length in Hpick. unfold semaphore_release; simpl.
  destruct (waiters p); simpl; rewrite ?length_app; simpl; lia.
Qed.

(** [asyncio.gather] over [tasks], one task per row. *)
Definition gather (schedule : list nat) (semaphore : Z) (rows : list row)
    : state World -> gathered * state World :=
  run_tasks schedule
    (fold_left (fun p t => semaphore_acquire t p) (imap (fun i r => (i, r)) rows)
       {| sem_value := semaphore; waiters := []; running := [];
          slots := replicate (length rows) None |}).
End Orchestrator.

(** [status_counts] *)
Record counts := { n_OK : Z; n_SKIP : Z; n_ERROR : Z }.

Definition count_status (c : counts) (result : outcome) : counts :=
  match o_status result with
  | OK => {| n_OK := n_OK c + 1; n_SKIP := n_SKIP c; n_ERROR := n_ERROR c |}
  | SKIP => {| n_OK := n_OK c; n_SKIP := n_SKIP c + 1; n_ERROR := n_ERROR c |}
  | ERROR => {| n_OK := n_OK c; n_SKIP := n_SKIP c; n_ERROR := n_ERROR c + 1 |}
  end.

Definition status_str (st : status) : string :=
  match st with OK => "OK" | SKIP => "SKIP" | ERROR => "ERROR" end.

Definition opt_cell (v : option string) : cell :=
  match v with Some x => CStr x | None => CNone end.

(** [result_dict]: four lists filled by the loop of lines 111-115. *)
Record result_dict := {
  rd_status : list cell;
  rd_portal_id : list cell;
  rd_error_msg : list cell;
  rd_processed_ts : list cell
}.

Definition append_result (d : result_dict) (r : outcome) : result_dict :=
  {| rd_status := rd_status d ++ [CStr (status_str (o_status r))];
     rd_portal_id := rd_portal_id d ++ [opt_cell (o_portal_id r)];
     rd_error_msg := rd_error_msg d ++ [opt_cell (o_error_msg r)];
     rd_processed_ts := rd_processed_ts d ++ [CStr (o_processed_ts r)] |}.

(** [df[name] = values]: the values are laid onto the rows by position;
    pandas refuses a list whose length is not the number of rows. *)
Definition set_column (name : string) (values : list cell) (df : DataFrame)
    : exn + DataFrame :=
  if (length values =? length (df_rows df))%nat then
    inr {| df_columns := if bool_decide (name ∈ df_columns df) then df_columns df
                         else df_columns df ++ [name];
           df_rows := zip_with (fun r v => <[name := v]> r) (df_rows df) values |}
  else inl (Exn ValueError "Length of values does not match length of index").

(** [df.assign] applied to the four columns of [result_dict] *)
Definition assign (d : result_dict) (df : DataFrame) : exn + DataFrame :=
  match set_column "status" (rd_status d) df with
  | inl e => inl e
  | inr df1 =>
      match set_column "portal_id" (rd_portal_id d) df1 with
      | inl e => inl e
      | inr df2 =>
          match set_column "error_msg" (rd_error_msg d) df2 with
          | inl e => inl e
          | inr df3 => set_column "processed_ts" (rd_processed_ts d) df3
          end
      end
  end.

(** How a call of [main] ends. *)
Inductive completion :=
| Return (code : Z)
| Raises (e : exn)
| Never.

Section Main.
Context {platform : Platform}.

(** The namespace of the [portal_uploader] module that [main] imports
    [PortalUploader] from. *)
Variable ns : namespace.

(** [process_row] (lines 24-38) between the two ends of its
    [async with semaphore], which [run_tasks] plays on the pool: it awaits
    [uploader.upload_row] on a copy of the row and returns what that
    returns. *)
Definition process_row (r : row) : M World outcome :=
  upload_row ns r.

(** Lines 52-81: everything before the uploader is created.  [inl code] is
    an early [return code]; [inr (df, semaphore)] goes on.  Of [load_dotenv]
    and [bootstrap], which set up the environment and the log sinks, only the
    first log line is kept. *)
Definition startup (csv_path : string) (concurrency : Z)
    : M World (Z + DataFrame * Z) :=
  logger INFO "[INIT] invoice_bot starting up" >>
  let* found := perform (path_exists csv_path) in
  if negb found then
    logger ERROR_LEVEL "[INIT] CSV file not found" >> ret (inl 1)
  else
    let* read :=
      try_except
        (let* df := perform (read_csv csv_path) in
         logger INFO "[READ_CSV]" >> ret (Some df))
        (fun _ => logger ERROR_LEVEL "[INIT] Failed to read CSV" >> ret None) in
    match read with
    | None => ret (inl 1)
    | Some df =>
        let missing_columns :=
          filter (fun col => col ∉ df_columns df) REQUIRED_COLUMNS in
        match missing_columns with
        | _ :: _ => logger ERROR_LEVEL "[INIT] Missing required columns" >> ret (inl 1)
        | [] =>
            let* semaphore := Semaphore concurrency in
            ret (inr (df, semaphore))
        end
    end.

(** Lines 95-138: counts, output table, exit code. *)
Definition report (df : DataFrame) (results : list outcome) : M World Z :=
  let status_counts :=
    fold_left count_status results {| n_OK := 0; n_SKIP := 0; n_ERROR := 0 |} in
  let d := fold_left append_result results
             {| rd_status := []; rd_portal_id := []; rd_error_msg := [];
                rd_processed_ts := [] |} in
  let* result_df := lift (assign d df) in
  let* output_csv := (fun s => (inr ("run-" +:+ now_strftime (world s) +:+ ".csv"), s)) in
  perform (to_csv output_csv result_df) >>
  logger INFO "[SUMMARY_WRITE]" >>
  logger INFO "[SUMMARY]" >>
  if 0 <? n_ERROR status_counts then ret 2 else ret 0.

(** [main] (lines 41-138).  [schedule] is the order in which the running
    row tasks complete. *)
Definition main (schedule : list nat) (csv_path : string) (headless : bool)
    (concurrency : Z) (s0 : state World) : completion * state World :=
  match startup csv_path concurrency s0 with
  | (inl e, s1) => (Raises e, s1)
  | (inr (inl code), s1) => (Return code, s1)
  | (inr (inr (df, semaphore)), s1) =>
      match __aenter__ (PortalUploader headless) s1 with
      | (inl e, s2) => (Raises e, s2)
      | (inr uploader, s2) =>
          match gather process_row schedule semaphore (df_rows df) s2 with
          | (Pending, s3) => (Never, s3)
          | (Exception e, s3) =>
              match __aexit__ uploader s3 with
              | (inl e', s4) => (Raises e', s4)
              | (inr _, s4) => (Raises e, s4)
              end
          | (Results results, s3) =>
              match (__aexit__ uploader >> report df results) s3 with
              | (inl e, s4) => (Raises e, s4)
              | (inr code, s4) => (Return code, s4)
              end
          end
      end
  end.
End Main.

(* ===================================================================== *)
(** ** Conversions of cell values *)
(* ===================================================================== *)

(** What CPython's [str], [bool], [float], [format] and [pathlib] do with a
    cell, on strings of ASCII characters. *)

(** A double, as [float] and [format(_, '.2f')] see it. *)
Inductive pyfloat :=
| Finite (negative : bool) (m e : Z)      (* (-1)^negative * m * 2^e, with 0 <= m *)
| Infinite (negative : bool)
| NaN.

Definition is_digit (a : ascii) : bool :=
  (48 <=? nat_of_ascii a)%nat && (nat_of_ascii a <=? 57)%nat.

Definition digit_value (a : ascii) : Z := Z.of_nat (nat_of_ascii a) - 48.

(** The characters [float] strips from both ends of its argument. *)
Definition is_space (a : ascii) : bool :=
  let n := nat_of_ascii a in
  ((9 <=? n)%nat && (n <=? 13)%nat) || ((28 <=? n)%nat && (n <=? 32)%nat).

Definition lower (a : ascii) : ascii :=
  let n := nat_of_ascii a in
  if (65 <=? n)%nat && (n <=? 90)%nat then ascii_of_nat (n + 32) else a.

(** The rest of a [digitpart] after its first digit: digits, each
    optionally preceded by one underscore.  Returns the value, the number of
    digits and what follows. *)
Fixpoint more_digits (s : string) (acc : Z) (n : nat) : Z * nat * string :=
  match s with
  | String a s' =>
      if is_digit a then more_digits s' (10 * acc + digit_value a) (S n)
      else if Ascii.eqb a "_" then
        match s' with
        | String b s'' =>
            if is_digit b then more_digits s'' (10 * acc + digit_value b) (S n)
            else (acc, n, s)
        | EmptyString => (acc, n, s)
        end
      else (acc, n, s)
  | EmptyString => (acc, n, s)
  end.

Definition digitpart (s : string) : option (Z * nat * string) :=
  match s with
  | String a s' => if is_digit a then Some (more_digits s' (digit_value a) 1) else None
  | EmptyString => None
  end.

(** [number]: a [digitpart], a point, a [digitpart], one of the two parts
    being optional.  Returns the digits as one integer, the number of digits
    after the point and what follows. *)
Definition number (s : string) : option (Z * nat * string) :=
  match digitpart s with
  | Some (ip, _, String "." rest) =>
      match digitpart rest with
      | Some (fp, nf, rest') => Some (ip * 10 ^ Z.of_nat nf + fp, nf, rest')
      | None => Some (ip, 0%nat, rest)
      end
  | Some (ip, _, rest) => Some (ip, 0%nat, rest)
  | None =>
      match s with
      | String "." rest =>
          match digitpart rest with
          | Some (fp, nf, rest') => Some (fp, nf, rest')
          | None => None
          end
      | _ => None
      end
  end.

(** [exponent]: [e] or [E], an optional sign, a [digitpart]; nothing may
    follow. *)
Definition exponent (s : string) : option Z :=
  match s with
  | EmptyString => Some 0
  | String c rest =>
      if Ascii.eqb (lower c) "e" then
        match rest with
        | String "-" rest' =>
            match digitpart rest' with Some (x, _, EmptyString) => Some (- x) | _ => None end
        | String "+" rest' =>
            match digitpart rest' with Some (x, _, EmptyString) => Some x | _ => None end
        | _ =>
            match digitpart rest with Some (x, _, EmptyString) => Some x | _ => None end
        end
      else None
  end.

(** The integer nearest to [p / q], ties to even ([0 <= p], [0 < q]). *)
Definition round_half_even (p q : Z) : Z :=
  let d := p / q in
  let r := p mod q in
  if 2 * r <? q then d
  else if q <? 2 * r then d + 1
  else if Z.even d then d else d + 1.

(** [p / (q * 2 ^ k)] as a fraction. *)
Definition scaled (p q k : Z) : Z * Z :=
  if 0 <=? k then (p, q * 2 ^ k) else (p * 2 ^ (- k), q).

(** The double nearest to [p / q] ([0 < p], [0 < q]), ties to even, as a
    mantissa and a binary exponent; [None] beyond the largest double. *)
Definition nearest_double (p q : Z) : option (Z * Z) :=
  let l0 := Z.log2 p - Z.log2 q in
  let (a, b) := scaled p q l0 in
  let l := if a <? b then l0 - 1 else l0 in      (* 2^l <= p/q < 2^(l+1) *)
  let e := Z.max (l - 52) (-1074) in
  let (c, d) := scaled p q e in
  let m := round_half_even c d in
  if 1024 <=? Z.log2 m + e then None else Some (m, e).

Definition strip (s : string) : string :=
  let drop_spaces := fix go (l : list ascii) :=
    match l with a :: l' => if is_space a then go l' else l | [] => [] end in
  string_of_list_ascii
    (rev (drop_spaces (rev (drop_spaces (list_ascii_of_string s))))).

Definition lower_str (s : string) : string :=
  string_of_list_ascii (map lower (list_ascii_of_string s)).

(** [float(x)] for a string [x]; [None] is [ValueError]. *)
Definition float_of_str (x : string) : option pyfloat :=
  let s := strip x in
  let (negative, body) :=
    match s with
    | String "-" s' => (true, s')
    | String "+" s' => (false, s')
    | _ => (false, s)
    end in
  let word := lower_str body in
  if String.eqb word "inf" || String.eqb word "infinity" then Some (Infinite negative)
  else if String.eqb word "nan" then Some NaN
  else
    match number body with
    | Some (digits, nf, rest) =>
        match exponent rest with
        | Some x =>
            if digits =? 0 then Some (Finite negative 0 0)
            else
              let e10 := x - Z.of_nat nf in
              let (p, q) :=
                if 0 <=? e10 then (digits * 10 ^ e10, 1) else (digits, 10 ^ (- e10)) in
              match nearest_double p q with
              | Some (m, e) => Some (Finite negative m e)
              | None => Some (Infinite negative)
              end
        | None => None
        end
    | None => None
    end.

(** [float(z)] for an integer [z]; [None] is [OverflowError]. *)
Definition float_of_int (z : Z) : option pyfloat :=
  if z =? 0 then Some (Finite false 0 0)
  else match nearest_double (Z.abs z) 1 with
       | Some (m, e) => Some (Finite (z <? 0) m e)
       | None => None
       end.

(** [format(f, '.2f')] *)
Definition format_2f (f : pyfloat) : string :=
  match f with
  | NaN => "nan"
  | Infinite negative => if negative then "-inf" else "inf"
  | Finite negative m e =>
      let (p, q) := scaled (m * 100) 1 (- e) in
      let cents := round_half_even p q in
      (if negative then "-" else "") +:+ pretty (cents / 100) +:+ "." +:+
      pretty (cents mod 100 / 10) +:+ pretty (cents mod 10)
  end.

Definition hex_digit (n : nat) : ascii :=
  ascii_of_nat (if (n <? 10)%nat then 48 + n else 87 + n).

(** [repr(s)] *)
Definition py_repr (s : string) : string :=
  let l := list_ascii_of_string s in
  let apostrophe := ascii_of_nat 39 in
  let double_quote := ascii_of_nat 34 in
  let backslash := ascii_of_nat 92 in
  let has c := existsb (Ascii.eqb c) l in
  let quote := if has apostrophe && negb (has double_quote) then double_quote else apostrophe in
  let escape (a : ascii) : list ascii :=
    let n := nat_of_ascii a in
    if (n =? 92)%nat then [backslash; backslash]
    else if Ascii.eqb a quote then [backslash; quote]
    else if (n =? 10)%nat then [backslash; "n"%char]
    else if (n =? 13)%nat then [backslash; "r"%char]
    else if (n =? 9)%nat then [backslash; "t"%char]
    else if (n <? 32)%nat || (n =? 127)%nat
         then [backslash; "x"%char; hex_digit (n / 16); hex_digit (n mod 16)]
    else [a] in
  string_of_list_ascii (quote :: concat (map escape l) ++ [quote]).

(** [str(x)]; a float cell is given by its [repr]. *)
Definition str_of_cell (c : cell) : string :=
  match c with
  | CStr x => x
  | CInt z => pretty z
  | CFloat x => x
  | CNone => "None"
  end.

(** The truth value of a cell. *)
Definition bool_of_cell (c : cell) : bool :=
  match c with
  | CStr x => negb (String.eqb x "")
  | CInt z => negb (z =? 0)
  | CFloat x => match float_of_str x with Some (Finite _ 0 _) => false | _ => true end
  | CNone => false
  end.

(** [format(float(x), '.2f')] *)
Definition format_float_2f (c : cell) : exn + string :=
  match c with
  | CStr x | CFloat x =>
      match float_of_str x with
      | Some f => inr (format_2f f)
      | None => inl (Exn ValueError ("could not convert string to float: " +:+ py_repr x))
      end
  | CInt z =>
      match float_of_int z with
      | Some f => inr (format_2f f)
      | None => inl (Exn OverflowError "int too large to convert to float")
      end
  | CNone =>
      inl (Exn TypeError "float() argument must be a string or a real number, not 'NoneType'")
  end.

(** The components of a path between its slashes. *)
Fixpoint components (l cur : list ascii) : list string :=
  match l with
  | [] => [string_of_list_ascii (rev cur)]
  | a :: l' =>
      if Ascii.eqb a "/" then string_of_list_ascii (rev cur) :: components l' []
      else components l' (a :: cur)
  end.

(** [str(Path(x).resolve())] on a file system without symbolic links, in the
    working directory [cwd]. *)
Definition resolve_in (cwd : list string) (c : cell) : exn + string :=
  match c with
  | CStr x =>
      if existsb (Ascii.eqb (ascii_of_nat 0)) (list_ascii_of_string x)
      then inl (Exn ValueError "embedded null byte")
      else
        let start := match x with String "/" _ => [] | _ => cwd end in
        let walk := fold_left
                      (fun stack part =>
                         if String.eqb part "" || String.eqb part "." then stack
                         else if String.eqb part ".." then removelast stack
                         else stack ++ [part])
                      (components (list_ascii_of_string x) []) start in
        inr ("/" +:+ String.concat "/" walk)
  | CInt _ => inl (Exn TypeError "expected str, bytes or os.PathLike object, not int")
  | CFloat _ => inl (Exn TypeError "expected str, bytes or os.PathLike object, not float")
  | CNone => inl (Exn TypeError "expected str, bytes or os.PathLike object, not NoneType")
  end.

(* ===================================================================== *)
(** ** A scripted platform *)
(* ===================================================================== *)

(** A platform whose outside world is a script: the list of the replies the
    next calls get, in the order of the calls.  Once the script is used up
    every call succeeds with an empty answer. *)
Inductive reply :=
| Ok
| OkInt (z : Z)
| OkStr (s : string)
| OkBool (b : bool)
| OkEnv (v : option string)
| OkTable (df : DataFrame)
| OkPage (p : page)
| Fails (e : exn).

Definition default_ans (o : op) : ans o :=
  match o return ans o with
  | context_new_page => 0%nat
  | locator_count _ _ => 0
  | locator_evaluate _ _ _ => ""
  | locator_inner_text _ _ => ""
  | path_exists _ => true
  | os_getenv _ => None
  | read_csv _ => {| df_columns := []; df_rows := [] |}
  | _ => tt
  end.

Definition decode (o : op) (r : reply) : exn + ans o :=
  match r with
  | Fails e => inl e
  | _ =>
      inr (match o return ans o with
           | context_new_page => match r with OkPage p => p | _ => 0%nat end
           | locator_count _ _ => match r with OkInt z => z | _ => 0 end
           | locator_evaluate _ _ _ => match r with OkStr x => x | _ => "" end
           | locator_inner_text _ _ => match r with OkStr x => x | _ => "" end
           | path_exists _ => match r with OkBool b => b | _ => true end
           | os_getenv _ => match r with OkEnv v => v | _ => None end
           | read_csv _ =>
               match r with OkTable df => df | _ => {| df_columns := []; df_rows := [] |} end
           | _ => tt
           end)
  end.

Definition scripted : Platform := {|
  World := list reply;
  driver o w :=
    match w with
    | [] => (inr (default_ans o), [])
    | r :: w' => (decode o r, w')
    end;
  now_isoformat _ := "2024-05-01T12:00:00";
  now_strftime _ := "20240501-120000";
  BASE_URL := "https://placeholder-portal.example.com";
  py_str := str_of_cell;
  py_bool := bool_of_cell;
  format_price := format_float_2f;
  resolve_path := resolve_in ["srv"; "invoices"]
|}.

(** A world on which nothing has happened yet. *)
Definition fresh {W} (w : W) : state W := {| world := w; trace := [] |}.

Definition invoice (service_id : string) (price : Z) (invoice_path : string) : row :=
  {[ "service_id" := CStr service_id; "price" := CInt price;
     "invoice_path" := CStr invoice_path ]}.

Definition TimeoutError_ (msg : string) : exn := Exn PlaywrightTimeoutError msg.

(** An operation that times out whenever it is invoked. *)
Definition always_times_out : unit -> (exn + string) * unit :=
  fun w => (inl (TimeoutError_ "Timeout 5000ms exceeded."), w).

(** An operation that fails with an error the portal will not recover from. *)
Definition always_forbidden : unit -> (exn + string) * unit :=
  fun w => (inl (Exn PlaywrightError "net::ERR_HTTP_RESPONSE_CODE_FAILURE 403"), w).

(** An operation that is rate limited on its first invocation (the world
    counts the invocations) and succeeds from then on. *)
Definition limited_once : nat -> (exn + string) * nat :=
  fun n => match n with
           | O => (inl (Exn PlaywrightError "HTTP 429 Too Many Requests"), 1%nat)
           | S _ => (inr "P-1001", S n)
           end.

(** An input table of three invoices. *)
Definition three_invoices : DataFrame :=
  {| df_columns := ["service_id"; "price"; "invoice_path"];
     df_rows := [invoice "S1" 10 "a.pdf"; invoice "S2" 20 "b.pdf";
                 invoice "S3" 30 "c.pdf"] |}.

(** An input table of one invoice. *)
Definition one_invoice : DataFrame :=
  {| df_columns := ["service_id"; "price"; "invoice_path"];
     df_rows := [invoice "S1" 10 "a.pdf"] |}.

(* ===================================================================== *)
(** ** Vocabulary of the properties *)
(* ===================================================================== *)

(** An operation of the outside world wrapped so that the world keeps the
    list of what its invocations returned or raised, oldest first. *)
Definition recorded {W0 A} (f : W0 -> (exn + A) * W0) : M (list (exn + A) * W0) A :=
  fun s => let (r, w') := f (snd (world s)) in
           (r, {| world := (fst (world s) ++ [r], w'); trace := trace s |}).

(** The invocations recorded so far. *)
Definition calls {W0 A} (s : state (list (exn + A) * W0)) : list (exn + A) :=
  fst (world s).

(** The delays of a trace, in milliseconds, oldest first. *)
Definition sleeps (t : list event) : list Z :=
  omap (fun ev => match ev with EvSleep ms => Some ms | _ => None end) t.

Definition is_goto (ev : event) : bool :=
  match ev with EvOp (page_goto _ _) => true | _ => false end.

(** The duplicate check of line 166. *)
Definition is_duplicate_check (ev : event) : bool :=
  match ev with EvOp (locator_count _ _) => true | _ => false end.

(** How many events of a trace satisfy [f]. *)
Definition occurrences (f : event -> bool) (t : list event) : nat :=
  length (List.filter f t).

(** The invocations made between two states, oldest first. *)
Definition attempts_of {W0 A} (s s' : state (list (exn + A) * W0)) : list (exn + A) :=
  drop (length (calls s)) (calls s').

(** The delays slept between two states, in milliseconds, oldest first. *)
Definition delays_of {W} (s s' : state W) : list Z :=
  drop (length (sleeps (trace s))) (sleeps (trace s')).

(** An invocation that raised an error the loop retries. *)
Definition retryable_failure {A} (c : exn + A) : Prop :=
  exists e, c = inl e /\ is_retryable e = true.





(** The four result columns of [o] laid onto an input row. *)
Definition merge (r : row) (o : outcome) : row :=
  <["processed_ts" := CStr (o_processed_ts o)]>
    (<["error_msg" := opt_cell (o_error_msg o)]>
       (<["portal_id" := opt_cell (o_portal_id o)]>
          (<["status" := CStr (status_str (o_status o))]> r))).

(** The tables a trace wrote, oldest first. *)
Definition written_tables (t : list event) : list DataFrame :=
  omap (fun ev => match ev with EvOp (to_csv _ table) => Some table | _ => None end) t.

(** The first three release steps in the order of [__aexit__]. *)
Definition release_steps : list event :=
  [EvOp context_close; EvOp browser_close; EvOp playwright_stop].

(** Events that belong to the startup of [main]: log lines, the existence
    test of the input file and its reading. *)
Definition is_startup_event (ev : event) : bool :=
  match ev with
  | EvLog _ _ => true
  | EvOp (path_exists _) => true
  | EvOp (read_csv _) => true
  | _ => false
  end.

(** [o] is an outcome that [upload] returned for the row [r]. *)
Definition produced {W} (upload : row -> M W outcome) (r : row) (o : outcome) : Prop :=
  exists s0 s1, upload r s0 = (inr o, s1).

(** The tasks of a pool that are not done yet. *)
Definition pending (p : pool) : list (nat * row) := running p ++ waiters p.

(** What holds of the pool of [gather] between two completions: the pending
    tasks are distinct tasks of [rows], their slots are empty, every empty
    slot belongs to a pending task, and every filled slot holds an outcome
    produced for the row at its position. *)
Definition pool_ok {W} (upload : row -> M W outcome) (rows : list row)
    (pend : list (nat * row)) (slots : list (option outcome)) : Prop :=
  length slots = length rows /\
  NoDup (pend.*1) /\
  (forall i r, (i, r) ∈ pend -> rows !! i = Some r /\ slots !! i = Some None) /\
  (forall i, slots !! i = Some None -> i ∈ pend.*1) /\
  (forall i o, slots !! i = Some (Some o) ->
               exists r, rows !! i = Some r /\ produced upload r o).

(** Every value [m] returns satisfies [Q]. *)
Definition returns_only {W A} (m : M W A) (Q : A -> Prop) : Prop :=
  forall s a s', m s = (inr a, s') -> Q a.

(** Running [m] adds between [lo] and [hi] events that satisfy [f] to the
    trace, and removes none. *)
Definition adds {W A} (f : event -> bool) (m : M W A) (lo hi : nat) : Prop :=
  forall s,
    (occurrences f (trace s) + lo <= occurrences f (trace (snd (m s))))%nat /\
    (occurrences f (trace (snd (m s))) <= occurrences f (trace s) + hi)%nat.

Definition is_sleep (ev : event) : bool :=
  match ev with EvSleep _ => true | _ => false end.

(** Running [m] starts some number [n] of attempts, [lo <= n <= hi]: it
    navigates to the entry page [n] times, backs off once between two
    attempts, and runs the duplicate check at most [n] times; exactly [n]
    times where [every] is set. *)
Definition attempts {W A} (every : bool) (m : M W A) (lo hi : nat) : Prop :=
  forall s, exists n : nat,
    (lo <= n <= hi)%nat /\
    occurrences is_goto (trace (snd (m s))) = (occurrences is_goto (trace s) + n)%nat /\
    occurrences is_sleep (trace (snd (m s))) = (occurrences is_sleep (trace s) + pred n)%nat /\
    (occurrences is_duplicate_check (trace (snd (m s)))
     <= occurrences is_duplicate_check (trace s) + n)%nat /\
    (every = true ->
     occurrences is_duplicate_check (trace (snd (m s)))
     = (occurrences is_duplicate_check (trace s) + n)%nat).

(** A portal that answers every call at once and never fails: the saved
    session exists, environment variables are unset, and every duplicate
    check counts [duplicates] matches. *)
Definition constant_portal (duplicates : Z) : Platform := {|
  World := unit;
  driver o w := (decode o (OkInt duplicates), w);
  now_isoformat _ := "2024-05-01T12:00:00";
  now_strftime _ := "20240501-120000";
  BASE_URL := "https://placeholder-portal.example.com";
  py_str := py_str (Platform := scripted);
  py_bool := py_bool (Platform := scripted);
  format_price := format_price (Platform := scripted);
  resolve_path := resolve_path (Platform := scripted)
|}.

(** The sum of a list of delays. *)
Definition total_delay (l : list Z) : Z := foldr Z.add 0 l.

Definition is_page_close (ev : event) : bool :=
  match ev with EvOp (page_close _) => true | _ => false end.

(** Filling a field, attaching a file, clicking: what touches the form. *)
Definition is_form_event (ev : event) : bool :=
  match ev with
  | EvOp (page_fill _ _ _) => true
  | EvOp (page_set_input_files _ _ _) => true
  | EvOp (page_click _ _) => true
  | _ => false
  end.

(** What only the login workflow does: reading the credentials, opening a
    page, driving it, saving the authentication state. *)
Definition is_login_event (ev : event) : bool :=
  match ev with
  | EvOp (os_getenv _) => true
  | EvOp context_new_page => true
  | EvOp (page_goto _ _) => true
  | EvOp (page_fill _ _ _) => true
  | EvOp (page_click _ _) => true
  | EvOp (page_wait_for_selector _ _ _) => true
  | EvOp (context_storage_state _) => true
  | EvOp (page_close _) => true
  | _ => false
  end.

(** The class of the exception of a result, if it is one. *)
Definition exc_type_of {A} (r : exn + A) : option exc_class :=
  match r with inl e => Some (exc_type e) | inr _ => None end.

(** [o] has the status [st]. *)
Definition has_status (st : status) (o : outcome) : bool :=
  match st, o_status o with
  | OK, OK | SKIP, SKIP | ERROR, ERROR => true
  | _, _ => false
  end.

(** The columns [main] adds to the table, in the order it adds them. *)
Definition RESULT_COLUMNS : list string :=
  ["status"; "portal_id"; "error_msg"; "processed_ts"].

(** What holds of the semaphore throughout [gather] for a concurrency [c]:
    the value is never negative, the tasks past the semaphore and the value
    add up to [c], and a task waits only while the value is 0. *)
Definition admission_ok (c : Z) (p : pool) : Prop :=
  0 <= sem_value p /\
  sem_value p + Z.of_nat (length (running p)) = c /\
  (waiters p <> [] -> sem_value p = 0).

(** The call that [unconfirmed_portal] lets time out: the wait for the
    success message of line 206. *)
Definition is_confirmation_wait (o : op) : bool :=
  match o with
  | page_wait_for_selector _ _ 5000 => true
  | _ => false
  end.

(** A portal on which a submitted form is never confirmed: every call
    succeeds at once, no duplicate is found, and the wait for the success
    message always times out. *)
Definition unconfirmed_portal : Platform := {|
  World := unit;
  driver o w :=
    if is_confirmation_wait o
    then (inl (TimeoutError_ "Timeout 5000ms exceeded."), w)
    else (decode o Ok, w);
  now_isoformat _ := "2024-05-01T12:00:00";
  now_strftime _ := "20240501-120000";
  BASE_URL := "https://placeholder-portal.example.com";
  py_str := str_of_cell;
  py_bool := bool_of_cell;
  format_price := format_float_2f;
  resolve_path := resolve_in ["srv"; "invoices"]
|}.

(** The calls of a release, in the order of [__aexit__]. *)
Definition release_ops : list op := [context_close; browser_close; playwright_stop].

Definition is_release_step (ev : event) : bool :=
  match ev with
  | EvOp context_close | EvOp browser_close | EvOp playwright_stop => true
  | _ => false
  end.

(** Calls made one after the other up to the first one that raises: how
    many were made, the exception of the one that raised, if any, and the
    world they leave. *)
Fixpoint up_to_first_failure {platform : Platform} (ops : list op) (w : World)
    : nat * option exn * World :=
  match ops with
  | [] => (0%nat, None, w)
  | o :: ops' =>
      match driver o w with
      | (inl e, w') => (1%nat, Some e, w')
      | (inr _, w') =>
          let '(k, failure, w'') := up_to_first_failure ops' w' in (S k, failure, w'')
      end
  end.


(* ===================================================================== *)
(** * Properties *)
(* ===================================================================== *)

(** ** The retry loop *)

Lemma retry_loop_step {W A} (func : M W A) max_retries retries last_exception s :
  retry_loop func max_retries retries last_exception s =
  if retries <=? max_retries then
    match attempt func retries s with
    | (inr v, s1) => (inr v, s1)
    | (inl e, s1) =>
        if is_retryable e then
          if retries + 1 <=? max_retries then
            match back_off (retries + 1) s1 with
            | (inr _, s2) => retry_loop func max_retries (retries + 1) (Some e) s2
            | (inl e', s2) => (inl e', s2)
            end
          else (inl e, snd (log_exhausted s1))
        else (inl e, s1)
    end
  else raise_last last_exception s.
Proof.
  rewrite retry_loop_equation_1.
  unfold retry_loop_unfold_clause_1.
  generalize (inspect (retries <=? max_retries)).
  intros [[] Hb]; rewrite Hb; reflexivity.
Qed.

Lemma overflow_threshold (k : Z) :
  true_division_overflows (2 ^ k * 1000) 1000 = true <-> 1024 <= k.
Proof.
  unfold true_division_overflows. rewrite Z.leb_le.
  assert (Hgap : 2 ^ 1023 < 2 ^ 1024 - 2 ^ 970) by reflexivity.
  assert (Hpos : 0 < 2 ^ 970) by reflexivity.
  split.
  - intros H. destruct (Z.lt_ge_cases k 1024) as [Hlt|Hge]; [exfalso | exact Hge].
    assert (2 ^ k <= 2 ^ 1023).
    { destruct (Z.lt_ge_cases k 0) as [Hneg|Hnn].
      - rewrite (Z.pow_neg_r 2 k Hneg). apply Z.pow_nonneg. lia.
      - apply Z.pow_le_mono_r; lia. }
    lia.
  - intros Hge. assert (2 ^ 1024 <= 2 ^ k) by (apply Z.pow_le_mono_r; lia). lia.
Qed.

Lemma back_off_cases {W} (k : Z) (s : state W) :
  (k < 1024 /\
   back_off k s
   = (inr tt,
      {| world := world s;
         trace := (trace s ++ [EvLog WARNING "Rate limit detected, backing off"])
                  ++ [EvSleep (2 ^ k * 1000)] |})) \/
  (1024 <= k /\ back_off k s = (inl division_overflow, s)).
Proof.
  unfold back_off. cbv zeta.
  destruct (true_division_overflows (2 ^ k * 1000) 1000) eqn:E.
  - right. apply overflow_threshold in E. auto.
  - left. split; [|reflexivity].
    destruct (Z.lt_ge_cases k 1024) as [|Hge]; [assumption|].
    apply overflow_threshold in Hge. congruence.
Qed.

Section RetryLoop.
Context {W A : Type} (func : M W A) (max_retries : Z).

(** Case analysis and induction along the iterations of the loop. *)
Lemma retry_loop_cases
    (P : Z -> option exn -> state W -> (exn + A) * state W -> Prop) :
  (forall r last s, max_retries < r -> P r last s (raise_last last s)) ->
  (forall r last s v s1,
      r <= max_retries -> attempt func r s = (inr v, s1) -> P r last s (inr v, s1)) ->
  (forall r last s e s1,
      r <= max_retries -> attempt func r s = (inl e, s1) ->
      is_retryable e = false -> P r last s (inl e, s1)) ->
  (forall r last s e s1,
      r <= max_retries -> attempt func r s = (inl e, s1) ->
      is_retryable e = true -> max_retries < r + 1 ->
      P r last s (inl e, snd (log_exhausted s1))) ->
  (forall r last s e s1 e' s2,
      r <= max_retries -> attempt func r s = (inl e, s1) ->
      is_retryable e = true -> r + 1 <= max_retries ->
      back_off (r + 1) s1 = (inl e', s2) ->
      P r last s (inl e', s2)) ->
  (forall r last s e s1 s2,
      r <= max_retries -> attempt func r s = (inl e, s1) ->
      is_retryable e = true -> r + 1 <= max_retries ->
      back_off (r + 1) s1 = (inr tt, s2) ->
      P (r + 1) (Some e) s2 (retry_loop func max_retries (r + 1) (Some e) s2) ->
      P r last s (retry_loop func max_retries (r + 1) (Some e) s2)) ->
  forall r last s, P r last s (retry_loop func max_retries r last s).
Proof.
  intros Hexit Hret Hterm Hexh Hover Hagain r last s.
  remember (Z.to_nat (max_retries + 1 - r)) as n eqn:Hn.
  revert r last s Hn.
  induction n as [|n IH]; intros r last s Hn; rewrite retry_loop_step.
  - destruct (Z.leb_spec r max_retries); [lia|]. apply Hexit; lia.
  - destruct (Z.leb_spec r max_retries); [|lia].
    destruct (attempt func r s) as [[e|v] s1] eqn:Ha.
    + destruct (is_retryable e) eqn:He.
      * destruct (Z.leb_spec (r + 1) max_retries).
        -- destruct (back_off (r + 1) s1) as [[e'|[]] s2] eqn:Hb.
           ++ eapply Hover; eauto.
           ++ eapply Hagain; eauto. apply IH. lia.
        -- eapply Hexh; eauto.
      * eapply Hterm; eauto.
    + eapply Hret; eauto.
Qed.

(** A value the loop returns is a value [func] returned. *)
Lemma retry_loop_returns r last s v s' :
  retry_loop func max_retries r last s = (inr v, s') ->
  exists s0, func s0 = (inr v, s').
Proof.
  revert v s'.
  apply (retry_loop_cases
           (fun _ _ _ res => forall v s',
                res = (inr v, s') -> exists s0, func s0 = (inr v, s'))).
  - intros ? [e|] ? _ v s'; discriminate.
  - intros r0 _ s0 v0 s1 _ Ha v s' [= <- <-].
    unfold attempt, bind in Ha.
    destruct ((if 0 <? r0 then logger WARNING "Retry attempt" else ret tt) s0)
      as [[?|?] s0'] eqn:E; [discriminate|]. eauto.
  - intros; discriminate.
  - intros; discriminate.
  - intros; discriminate.
  - intros ? ? ? ? ? ? _ _ _ _ _ IH v s' Hres. eauto.
Qed.
End RetryLoop.







Lemma sleeps_app t1 t2 : sleeps (t1 ++ t2) = sleeps t1 ++ sleeps t2.
Proof. unfold sleeps. apply omap_app. Qed.

Section Recorded.
Context {W0 A : Type} (f : W0 -> (exn + A) * W0).

Lemma attempt_recorded r (s : state (list (exn + A) * W0)) res s1 :
  attempt (recorded f) r s = (res, s1) ->
  calls s1 = calls s ++ [res] /\ sleeps (trace s1) = sleeps (trace s).
Proof.
  unfold attempt, bind, logger, emit, ret, recorded, calls.
  destruct (0 <? r); simpl; destruct (f _) as [[e|v] w']; intros [= <- <-]; simpl;
    rewrite ?sleeps_app, ?app_nil_r; auto.
Qed.

Lemma back_off_recorded k (s s2 : state (list (exn + A) * W0)) :
  back_off k s = (inr tt, s2) ->
  k < 1024 /\ calls s2 = calls s /\
  sleeps (trace s2) = sleeps (trace s) ++ [2 ^ k * 1000].
Proof.
  destruct (back_off_cases k s) as [[Hk ->] | [_ ->]]; [|discriminate].
  intros [= <-]. unfold calls. cbn [world trace].
  rewrite !sleeps_app. simpl. rewrite app_nil_r. auto.
Qed.

Lemma back_off_overflow k (s s2 : state (list (exn + A) * W0)) e :
  back_off k s = (inl e, s2) -> 1024 <= k /\ e = division_overflow /\ s2 = s.
Proof.
  destruct (back_off_cases k s) as [[_ ->] | [Hk ->]]; [discriminate|].
  intros [= <- <-]. auto.
Qed.

Lemma log_exhausted_recorded (s : state (list (exn + A) * W0)) :
  calls (snd (log_exhausted s)) = calls s /\
  sleeps (trace (snd (log_exhausted s))) = sleeps (trace s).
Proof.
  unfold log_exhausted, logger, emit, calls; simpl.
  rewrite sleeps_app; simpl. rewrite app_nil_r. auto.
Qed.

(** What a run of the loop looks like from outside: the invocations before
    the last one all raised a retryable error and were each followed by one
    delay of [2 ^ retries * 1000] ms, with [retries] below 1024.  Either the
    last invocation decides the result, and a retryable error is the result
    only when the budget is used up; or the last invocation raised a
    retryable error within the budget and the delay after it could not be
    computed. *)
Lemma retry_loop_run max_retries r last (s : state (list (exn + A) * W0)) :
  r <= max_retries ->
  exists earlier c,
    calls (snd (retry_loop (recorded f) max_retries r last s))
    = calls s ++ earlier ++ [c] /\
    Forall retryable_failure earlier /\
    sleeps (trace (snd (retry_loop (recorded f) max_retries r last s)))
    = sleeps (trace s) ++ ((fun k => 2 ^ k * 1000) <$> seqZ (r + 1) (Z.of_nat (length earlier))) /\
    Z.of_nat (length earlier) <= max_retries - r /\
    (earlier <> [] -> r + Z.of_nat (length earlier) < 1024) /\
    ((fst (retry_loop (recorded f) max_retries r last s) = c /\
      (retryable_failure c -> Z.of_nat (length earlier) = max_retries - r))
     \/
     (retryable_failure c /\
      fst (retry_loop (recorded f) max_retries r last s) = inl division_overflow /\
      1024 <= r + Z.of_nat (length earlier) + 1 <= max_retries)).
Proof.
  revert r last s.
  apply (retry_loop_cases (recorded f) max_retries
           (fun r _ s res =>
              r <= max_retries ->
              exists earlier c,
                calls (snd res) = calls s ++ earlier ++ [c] /\
                Forall retryable_failure earlier /\
                sleeps (trace (snd res))
                = sleeps (trace s) ++ ((fun k => 2 ^ k * 1000) <$> seqZ (r + 1) (Z.of_nat (length earlier))) /\
                Z.of_nat (length earlier) <= max_retries - r /\
                (earlier <> [] -> r + Z.of_nat (length earlier) < 1024) /\
                ((fst res = c /\
                  (retryable_failure c -> Z.of_nat (length earlier) = max_retries - r))
                 \/
                 (retryable_failure c /\ fst res = inl division_overflow /\
                  1024 <= r + Z.of_nat (length earlier) + 1 <= max_retries)))).
  - intros; lia.
  - intros r _ s v s1 Hle Ha _. apply attempt_recorded in Ha as [Hc Hs].
    exists [], (inr v); cbn [fst snd length app]. rewrite Hc, Hs, app_nil_r.
    repeat split; auto; try lia; try congruence.
    left. split; [reflexivity|]. intros (e & [=] & _).
  - intros r _ s e s1 Hle Ha He _. apply attempt_recorded in Ha as [Hc Hs].
    exists [], (inl e); cbn [fst snd length app]. rewrite Hc, Hs, app_nil_r.
    repeat split; auto; try lia; try congruence.
    left. split; [reflexivity|]. intros (e0 & [= <-] & Hr). congruence.
  - intros r _ s e s1 Hle Ha He Hgt _. apply attempt_recorded in Ha as [Hc Hs].
    destruct (log_exhausted_recorded s1) as [Hc' Hs'].
    exists [], (inl e); cbn [fst snd length app]. rewrite Hc', Hs', Hc, Hs, app_nil_r.
    repeat split; auto; try lia; try congruence.
    left. split; [reflexivity|]. intros _. simpl. lia.
  - intros r _ s e s1 e' s2 Hle Ha He Hnext Hb _.
    apply attempt_recorded in Ha as [Hc Hs].
    apply back_off_overflow in Hb as (Hk & -> & ->).
    exists [], (inl e); cbn [fst snd length app]. rewrite Hc, Hs, app_nil_r.
    repeat split; auto; try lia; try congruence.
    right. repeat split; simpl; try lia. exists e. auto.
  - intros r _ s e s1 s2 Hle Ha He Hnext Hb IH _.
    apply attempt_recorded in Ha as [Hc Hs].
    apply back_off_recorded in Hb as (Hk & Hc' & Hs').
    destruct (IH Hnext) as (earlier & c & Hcalls & Hall & Hsleeps & Hlen & Hlow & Hend).
    exists (inl e :: earlier), c. rewrite Hcalls, Hsleeps, Hc', Hs', Hc, Hs.
    split; [rewrite <- !app_assoc; reflexivity|].
    split; [constructor; [exists e; auto | exact Hall]|].
    split.
    { simpl length. rewrite (seqZ_cons (r + 1)) by lia.
      rewrite fmap_cons, <- app_assoc. simpl. repeat f_equal; lia. }
    split; [simpl length; lia|].
    split.
    { intros _. simpl length. destruct earlier as [|c0 earlier'].
      - simpl. lia.
      - specialize (Hlow ltac:(discriminate)). simpl length in *. lia. }
    destruct Hend as [[Hres Hexh] | (Hr & Hres & Hbound)].
    + left. split; [exact Hres|]. intros Hc0. specialize (Hexh Hc0). simpl length. lia.
    + right. repeat split; auto; simpl length; lia.
Qed.
End Recorded.

Section RetryPolicy.
Context {W0 A : Type} (f : W0 -> (exn + A) * W0).

(** [retry_loop_run] for the whole of [_retry_with_backoff], in terms of
    the attempts and delays it adds. *)
Lemma retry_with_backoff_run max_retries (s : state (list (exn + A) * W0)) :
  0 <= max_retries ->
  exists earlier c,
    attempts_of s (snd (_retry_with_backoff (recorded f) max_retries s)) = earlier ++ [c] /\
    Forall retryable_failure earlier /\
    delays_of s (snd (_retry_with_backoff (recorded f) max_retries s))
    = (fun k => 2 ^ k * 1000) <$> seqZ 1 (Z.of_nat (length earlier)) /\
    Z.of_nat (length earlier) <= max_retries /\
    ((fst (_retry_with_backoff (recorded f) max_retries s) = c /\
      (retryable_failure c -> Z.of_nat (length earlier) = max_retries))
     \/
     (retryable_failure c /\
      fst (_retry_with_backoff (recorded f) max_retries s) = inl division_overflow /\
      length earlier = 1023%nat /\ 1024 <= max_retries)).
Proof.
  intros Hmax. unfold _retry_with_backoff, attempts_of, delays_of.
  destruct (retry_loop_run f max_retries 0 None s Hmax)
    as (earlier & c & Hcalls & Hall & Hsleeps & Hlen & Hlow & Hend).
  exists earlier, c. rewrite Hcalls, Hsleeps, !drop_app_length.
  repeat split; auto; [lia|].
  destruct Hend as [[Hres Hexh] | (Hr & Hres & Hbound)].
  - left. split; [exact Hres|]. intros Hc. rewrite (Hexh Hc). lia.
  - right. repeat split; auto; [|lia].
    destruct earlier as [|c0 earlier']; [simpl in Hbound; lia|].
    specialize (Hlow ltac:(discriminate)). lia.
Qed.


(** C4, amended.  When every attempt of a run with [max_retries = 3] fails
    with a retryable error, exactly 4 attempts are made, the delays between
    them are 2000, 4000 and 8000 ms (2, 4 and 8 times the base unit), and
    the error of the last attempt is raised. *)
Theorem exhausted_retries_back_off (s : state (list (exn + A) * W0)) :
  Forall retryable_failure (attempts_of s (snd (_retry_with_backoff (recorded f) 3 s))) ->
  length (attempts_of s (snd (_retry_with_backoff (recorded f) 3 s))) = 4%nat /\
  delays_of s (snd (_retry_with_backoff (recorded f) 3 s)) = [2000; 4000; 8000] /\
  exists e, fst (_retry_with_backoff (recorded f) 3 s) = inl e /\
            last (attempts_of s (snd (_retry_with_backoff (recorded f) 3 s))) = Some (inl e).
Proof.
  destruct (retry_with_backoff_run 3 s ltac:(lia))
    as (earlier & c & -> & _ & -> & _ & Hend).
  intros Hall. apply Forall_app in Hall as [_ Hlast].
  apply Forall_inv in Hlast.
  destruct Hend as [[-> Hexh] | (_ & _ & _ & Hbig)]; [|lia].
  specialize (Hexh Hlast). destruct Hlast as (e & He & _).
  rewrite length_app, last_snoc, Hexh, He. simpl.
  split; [lia|]. split; [reflexivity|]. eauto.
Qed.

End RetryPolicy.



(** C4 as stated fails: an operation that times out on each of its four
    attempts is retried after 2000, 4000 and 8000 ms, not after 1000, 2000
    and 4000 ms. *)
Lemma delays_are_not_1_2_4_times_base :
  Forall retryable_failure
    (attempts_of (fresh ([], tt))
       (snd (_retry_with_backoff (recorded always_times_out) 3 (fresh ([], tt))))) /\
  length (attempts_of (fresh ([], tt))
            (snd (_retry_with_backoff (recorded always_times_out) 3 (fresh ([], tt))))) = 4%nat /\
  delays_of (fresh ([], tt))
    (snd (_retry_with_backoff (recorded always_times_out) 3 (fresh ([], tt))))
  <> [1000; 2000; 4000].
Proof.
  split; [|split].
  - vm_compute. repeat constructor; eexists; split; reflexivity.
  - vm_compute. reflexivity.
  - vm_compute. discriminate.
Qed.

Lemma exhausted_retries_back_off_witness :
  length (attempts_of (fresh ([], tt))
            (snd (_retry_with_backoff (recorded always_times_out) 3 (fresh ([], tt))))) = 4%nat /\
  delays_of (fresh ([], tt))
    (snd (_retry_with_backoff (recorded always_times_out) 3 (fresh ([], tt))))
  = [2000; 4000; 8000] /\
  exists e, fst (_retry_with_backoff (recorded always_times_out) 3 (fresh ([], tt))) = inl e /\
            last (attempts_of (fresh ([], tt))
                    (snd (_retry_with_backoff (recorded always_times_out) 3 (fresh ([], tt)))))
            = Some (inl e).
Proof.
  apply (exhausted_retries_back_off always_times_out (fresh ([], tt))).
  vm_compute. repeat constructor; eexists; split; reflexivity.
Defined.


(** An error that fails the test of line 130 is not retried: one attempt, no
    delay, and the error goes to the caller. *)
Lemma terminal_error_not_retried :
  fst (_retry_with_backoff (recorded always_forbidden) 3 (fresh ([], tt)))
  = inl (Exn PlaywrightError "net::ERR_HTTP_RESPONSE_CODE_FAILURE 403") /\
  length (attempts_of (fresh ([], tt))
            (snd (_retry_with_backoff (recorded always_forbidden) 3 (fresh ([], tt)))))
  = 1%nat /\
  delays_of (fresh ([], tt))
    (snd (_retry_with_backoff (recorded always_forbidden) 3 (fresh ([], tt))))
  = [].
Proof. repeat split; vm_compute; reflexivity. Qed.

(** An operation that is rate limited once succeeds on the second attempt,
    2000 ms later. *)
Lemma rate_limited_once_succeeds :
  fst (_retry_with_backoff (recorded limited_once) 3 (fresh ([], 0%nat))) = inr "P-1001" /\
  delays_of (fresh ([], 0%nat))
    (snd (_retry_with_backoff (recorded limited_once) 3 (fresh ([], 0%nat))))
  = [2000].
Proof. split; vm_compute; reflexivity. Qed.


(** ** What a coroutine can return *)

Section Returns.
Context {W : Type}.

Lemma returns_ret {A} (a : A) (Q : A -> Prop) : Q a -> returns_only (W:=W) (ret a) Q.
Proof. intros HQ s a' s' [= <- _]. exact HQ. Qed.

Lemma returns_raise {A} e (Q : A -> Prop) : returns_only (W:=W) (raise e) Q.
Proof. intros s a s' [=]. Qed.

Lemma returns_any {A} (m : M W A) : returns_only m (fun _ => True).
Proof. intros s a s' _. exact I. Qed.

Lemma returns_bind {A B} (m : M W A) (k : A -> M W B) (P : A -> Prop) (Q : B -> Prop) :
  returns_only m P -> (forall a, P a -> returns_only (k a) Q) -> returns_only (bind m k) Q.
Proof.
  intros Hm Hk s b s'. unfold bind.
  destruct (m s) as [[e|a] s1] eqn:E; [discriminate|].
  intros Hb. eapply Hk; eauto.
Qed.

Lemma returns_try_except {A} (body : M W A) handler (Q : A -> Prop) :
  returns_only body Q -> (forall e, returns_only (handler e) Q) ->
  returns_only (try_except body handler) Q.
Proof.
  intros Hb Hh s a s'. unfold try_except.
  destruct (body s) as [[e|a'] s1] eqn:E.
  - apply Hh.
  - intros [= <- <-]. eauto.
Qed.

Lemma returns_try_finally {A} (body : M W A) fin (Q : A -> Prop) :
  returns_only body Q -> returns_only (try_finally body fin) Q.
Proof.
  intros Hb s a s'. unfold try_finally.
  destruct (body s) as [r s1] eqn:E. destruct (fin s1) as [[e|[]] s2]; [discriminate|].
  intros [= -> <-]. eauto.
Qed.

Lemma returns_retry {A} (func : M W A) max_retries (Q : A -> Prop) :
  returns_only func Q -> returns_only (_retry_with_backoff func max_retries) Q.
Proof.
  intros Hf s a s' Hr. apply retry_loop_returns in Hr as [s0 Hr]. eauto.
Qed.
End Returns.

Section UploadRowReturns.
Context {platform : Platform}.
Variable ns : namespace.

Lemma returns_datetime :
  returns_only (datetime_now_isoformat ns) (fun _ => binds_datetime ns = true).
Proof.
  intros s a s'. unfold datetime_now_isoformat.
  destruct (binds_datetime ns); [reflexivity | discriminate].
Qed.

Ltac returns_step :=
  lazymatch goal with
  | |- returns_only (bind (datetime_now_isoformat _) _) _ =>
      eapply returns_bind; [apply returns_datetime | intros ? ?]
  | |- returns_only (bind _ _) _ => eapply returns_bind; [apply returns_any | intros ? _]
  | |- returns_only (if ?b then _ else _) _ => destruct b
  | |- returns_only (raise _) _ => apply returns_raise
  end.

(** What [do_upload] returns when it returns: a SKIP with the sentinel
    identifier or an OK with the identifier read from the page, never an
    error message; and it returns only where [datetime] is bound. *)
Lemma do_upload_returns pg r :
  returns_only (do_upload ns pg r)
    (fun o => binds_datetime ns = true /\ o_error_msg o = None /\
              ((o_status o = SKIP /\ o_portal_id o = Some "unknown") \/
               (o_status o = OK /\ is_Some (o_portal_id o)))).
Proof.
  unfold do_upload. do 2 returns_step. cbv zeta. returns_step. returns_step.
  - (* duplicate found *)
    eapply (returns_bind _ _ (fun x => x = "unknown")).
    { apply returns_try_except.
      - eapply (returns_bind _ _ (fun _ => False)); [apply returns_raise | intros ? []].
      - intros _. apply returns_ret. reflexivity. }
    intros existing_id ->. do 2 returns_step.
    apply returns_ret. simpl. auto.
  - (* new service *)
    repeat returns_step.
    all: apply returns_ret; simpl; eauto 6.
Qed.

(** What [upload_row] returns when it returns. *)
Lemma upload_row_returns r :
  returns_only (upload_row ns r)
    (fun o => binds_datetime ns = true /\
              (is_Some (o_error_msg o) <-> o_status o = ERROR) /\
              (is_Some (o_portal_id o) <-> o_status o = OK \/ o_status o = SKIP) /\
              (o_status o = OK -> is_Some (o_portal_id o) /\ o_error_msg o = None)).
Proof.
  unfold upload_row. returns_step. apply returns_try_finally, returns_try_except.
  - eapply returns_bind; [apply returns_retry, do_upload_returns |].
    intros o (Hns & Herr & Hshape). returns_step. apply returns_ret.
    rewrite Herr. split; [assumption|].
    destruct Hshape as [[-> ->] | [-> Hid]]; repeat split;
      try (intros [? [=]]); try discriminate; try (intros [|]; discriminate); eauto.
  - intros e. repeat returns_step.
    apply returns_ret. simpl. repeat split; eauto;
      try (intros [? [=]]); try discriminate; try (intros [|]; discriminate).
Qed.
End UploadRowReturns.

(** ** The Row Submitter *)

(** C1, what the code does instead.  In the module as it is written, where
    [datetime] is never imported, [upload_row] raises for every row and every
    behaviour of the portal: each of its three return paths, the error
    handler included, evaluates [datetime.now()]. *)
Theorem upload_row_never_returns {platform : Platform} (r : row) (s : state World) :
  exists e, fst (upload_row portal_uploader_namespace r s) = inl e.
Proof.
  destruct (upload_row portal_uploader_namespace r s) as [[e|o] s'] eqn:E; [eauto|].
  apply upload_row_returns in E as [Hns _]. discriminate.
Qed.

(** The same on a portal where every call succeeds: the row is submitted and
    confirmed, and [upload_row] raises [NameError]. *)
Lemma upload_row_raises_on_cooperative_portal :
  fst (upload_row (platform:=scripted) portal_uploader_namespace
         (invoice "S1" 10 "a.pdf") (fresh []))
  = inl (Exn NameError "name 'datetime' is not defined").
Proof. vm_compute. reflexivity. Qed.


(** ** Counting events *)

Section Counting.
Context {W : Type} (f : event -> bool).

Lemma occurrences_app t1 t2 :
  occurrences f (t1 ++ t2) = (occurrences f t1 + occurrences f t2)%nat.
Proof. unfold occurrences. rewrite List.filter_app, length_app. reflexivity. Qed.

Lemma occurrences_one ev : occurrences f [ev] = if f ev then 1%nat else 0%nat.
Proof. unfold occurrences. simpl. destruct (f ev); reflexivity. Qed.

Lemma adds_ret {A} (a : A) : adds (W:=W) f (ret a) 0 0.
Proof. intros s. simpl. lia. Qed.

Lemma adds_raise {A} e : adds (W:=W) (A:=A) f (raise e) 0 0.
Proof. intros s. simpl. lia. Qed.

Lemma adds_emit ev :
  adds (W:=W) f (emit ev) (if f ev then 1 else 0) (if f ev then 1 else 0).
Proof.
  intros s. simpl. rewrite occurrences_app, occurrences_one.
  destruct (f ev); lia.
Qed.

Lemma adds_emit_other ev : f ev = false -> adds (W:=W) f (emit ev) 0 0.
Proof. intros Hev. generalize (adds_emit ev). rewrite Hev. auto. Qed.

Lemma adds_weaken {A} (m : M W A) lo hi lo' hi' :
  adds f m lo hi -> (lo' <= lo)%nat -> (hi <= hi')%nat -> adds f m lo' hi'.
Proof. intros Hm ? ? s. destruct (Hm s). lia. Qed.

Lemma adds_bind {A B} (m : M W A) (k : A -> M W B) lo hi hi' :
  adds f m lo hi -> (forall a, adds f (k a) 0 hi') -> adds f (bind m k) lo (hi + hi').
Proof.
  intros Hm Hk s. unfold bind. destruct (Hm s) as [H1 H2].
  destruct (m s) as [[e|a] s1]; simpl in *; [lia|].
  destruct (Hk a s1). lia.
Qed.

(** The three shapes of [adds_bind] the proofs below use. *)
Lemma adds_bind_silent {A B} (m : M W A) (k : A -> M W B) :
  adds f m 0 0 -> (forall a, adds f (k a) 0 0) -> adds f (bind m k) 0 0.
Proof. intros Hm Hk. exact (adds_bind m k 0 0 0 Hm Hk). Qed.

Lemma adds_bind_first {A B} (m : M W A) (k : A -> M W B) lo hi :
  adds f m lo hi -> (forall a, adds f (k a) 0 0) -> adds f (bind m k) lo hi.
Proof.
  intros Hm Hk. eapply adds_weaken; [exact (adds_bind m k lo hi 0 Hm Hk) | lia | lia].
Qed.

Lemma adds_bind_later {A B} (m : M W A) (k : A -> M W B) hi :
  adds f m 0 0 -> (forall a, adds f (k a) 0 hi) -> adds f (bind m k) 0 hi.
Proof. intros Hm Hk. exact (adds_bind m k 0 0 hi Hm Hk). Qed.

Lemma adds_try_except {A} (body : M W A) handler :
  adds f body 0 0 -> (forall e, adds f (handler e) 0 0) ->
  adds f (try_except body handler) 0 0.
Proof.
  intros Hb Hh s. unfold try_except. destruct (Hb s) as [H1 H2].
  destruct (body s) as [[e|a] s1]; simpl in *; [|lia].
  destruct (Hh e s1). lia.
Qed.
End Counting.

Section CountingOnPlatform.
Context {platform : Platform} (f : event -> bool).

Lemma adds_perform o :
  adds f (perform o) (if f (EvOp o) then 1 else 0) (if f (EvOp o) then 1 else 0).
Proof.
  intros s. unfold perform. destruct (driver o (world s)) as [r w']. simpl.
  rewrite occurrences_app, occurrences_one.
  destruct (f (EvOp o)); lia.
Qed.

Lemma adds_perform_other o : f (EvOp o) = false -> adds f (perform o) 0 0.
Proof. intros Ho. generalize (adds_perform o). rewrite Ho. auto. Qed.

Lemma adds_perform_one o : f (EvOp o) = true -> adds f (perform o) 1 1.
Proof. intros Ho. generalize (adds_perform o). rewrite Ho. auto. Qed.

Lemma adds_lift {A} (r : exn + A) : adds f (lift r) 0 0.
Proof. intros s. simpl. lia. Qed.

Lemma adds_datetime ns : adds f (datetime_now_isoformat ns) 0 0.
Proof. intros s. unfold datetime_now_isoformat. destruct (binds_datetime ns); simpl; lia. Qed.

Lemma adds_getitem r key : adds f (getitem r key) 0 0.
Proof. unfold getitem. destruct (r !! key); [apply adds_ret | apply adds_raise]. Qed.
End CountingOnPlatform.

Section CountingMore.
Context {W : Type} (f : event -> bool).

Lemma adds_bind_returns {A B} (m : M W A) (k : A -> M W B) (P : A -> Prop) :
  adds f m 0 0 -> returns_only m P -> (forall a, P a -> adds f (k a) 0 0) ->
  adds f (bind m k) 0 0.
Proof.
  intros Hm Hr Hk s. unfold bind. destruct (Hm s) as [H1 H2].
  destruct (m s) as [[e|a] s1] eqn:E; simpl in *; [lia|].
  destruct (Hk a (Hr _ _ _ E) s1). lia.
Qed.

Lemma adds_try_finally {A} (body : M W A) fin :
  adds f body 0 0 -> adds f fin 0 0 -> adds f (try_finally body fin) 0 0.
Proof.
  intros Hb Hf s. unfold try_finally. destruct (Hb s) as [H1 H2].
  destruct (body s) as [r s1]; simpl in *.
  destruct (Hf s1) as [H3 H4]. destruct (fin s1) as [[e|[]] s2]; simpl in *; lia.
Qed.

Lemma adds_unchanged {A} (m : M W A) s :
  adds f m 0 0 -> occurrences f (trace (snd (m s))) = occurrences f (trace s).
Proof. intros Hm. destruct (Hm s). lia. Qed.

End CountingMore.

Section RetrySilent.
Context {W A : Type} (f : event -> bool) (func : M W A) (max_retries : Z).
Hypothesis f_log : forall lv tag, f (EvLog lv tag) = false.
Hypothesis f_sleep : forall ms, f (EvSleep ms) = false.

(** The loop itself adds only log lines and delays: events of another kind
    come from the retried operation. *)
Lemma adds_retry_silent :
  adds f func 0 0 -> adds f (_retry_with_backoff func max_retries) 0 0.
Proof.
  intros Hf.
  assert (Hemit : forall lv tag, adds (W:=W) f (logger lv tag) 0 0)
    by (intros; apply adds_emit_other, f_log).
  assert (Hattempt : forall r, adds f (attempt func r) 0 0).
  { intros r. unfold attempt. apply adds_bind_silent; [|intros _; exact Hf].
    destruct (0 <? r); [apply Hemit | apply adds_ret]. }
  assert (Hback : forall k, adds (W:=W) f (back_off k) 0 0).
  { intros k. unfold back_off. cbv zeta.
    destruct (true_division_overflows _ _); [apply adds_raise|].
    apply adds_bind_silent; [apply Hemit|].
    intros _. apply adds_emit_other, f_sleep. }
  cut (forall r last s,
         occurrences f (trace (snd (retry_loop func max_retries r last s)))
         = occurrences f (trace s)).
  { intros Hloop s. unfold _retry_with_backoff. rewrite Hloop. lia. }
  apply (retry_loop_cases func max_retries
           (fun _ _ s res => occurrences f (trace (snd res)) = occurrences f (trace s))).
  - intros r [e|] s _; reflexivity.
  - intros r _ s v s1 _ Ha. destruct (Hattempt r s). rewrite Ha in *. simpl in *. lia.
  - intros r _ s e s1 _ Ha _. destruct (Hattempt r s). rewrite Ha in *. simpl in *. lia.
  - intros r _ s e s1 _ Ha _ _. destruct (Hattempt r s). rewrite Ha in *.
    destruct (Hemit ERROR_LEVEL "Max retries exceeded" s1). cbn [fst snd] in *.
    unfold log_exhausted. lia.
  - intros r _ s e s1 e' s2 _ Ha _ _ Hb. destruct (Hattempt r s). rewrite Ha in *.
    destruct (Hback (r + 1) s1). rewrite Hb in *. cbn [fst snd] in *. lia.
  - intros r _ s e s1 s2 _ Ha _ _ Hb IH. destruct (Hattempt r s). rewrite Ha in *.
    destruct (Hback (r + 1) s1). rewrite Hb in *. cbn [fst snd] in *. lia.
Qed.
End RetrySilent.


(** Proves that a coroutine adds no event of a given kind. *)
Ltac silent :=
  repeat first
    [ apply adds_ret
    | apply adds_raise
    | apply adds_lift
    | apply adds_datetime
    | apply adds_getitem
    | match goal with
      | |- adds ?f (perform ?o) 0 0 => exact (adds_perform_other f o eq_refl)
      end
    | apply adds_emit_other; reflexivity
    | apply adds_try_except; [|intros ?]
    | apply adds_bind_silent; [|intros ?]
    | match goal with
      | |- adds _ (if ?b then _ else _) _ _ => destruct b
      | |- adds _ (match ?x with OK => _ | SKIP => _ | ERROR => _ end) _ _ => destruct x
      end ].

Section Attempts.
Context {platform : Platform}.
Variable ns : namespace.

(** One run of [do_upload] navigates to the entry page exactly once ... *)
Lemma do_upload_goto pg r : adds is_goto (do_upload ns pg r) 1 1.
Proof.
  unfold do_upload. apply adds_bind_first; [apply adds_perform_one; reflexivity|].
  intros _. cbv zeta. unfold logger. silent.
Qed.

(** ... runs the duplicate check at most once ... *)
Lemma do_upload_duplicate_check pg r : adds is_duplicate_check (do_upload ns pg r) 0 1.
Proof.
  unfold do_upload. apply adds_bind_later; [silent|]. intros _.
  apply adds_bind_later; [silent|]. intros sid. cbv zeta.
  apply adds_bind_first.
  - eapply adds_weaken; [apply adds_perform_one; reflexivity | lia | lia].
  - intros n. unfold logger. silent.
Qed.

(** ... and never sleeps. *)
Lemma do_upload_sleeps pg r : adds is_sleep (do_upload ns pg r) 0 0.
Proof. unfold do_upload, logger. cbv zeta. silent. Qed.

(** For a row with a [service_id], on a portal whose entry page always
    loads, every run of [do_upload] runs the duplicate check. *)
Lemma do_upload_checks_once pg r :
  is_Some (r !! "service_id") ->
  (forall p url w0, exists w1, driver (page_goto p url) w0 = (inr tt, w1)) ->
  adds is_duplicate_check (do_upload ns pg r) 1 1.
Proof.
  intros [sid Hsid] Hgoto s.
  destruct (Hgoto pg (BASE_URL +:+ "/new-service") (world s)) as [w1 Hw1].
  remember (do_upload ns pg r s) as res eqn:E. unfold do_upload in E.
  unfold bind at 1 in E. unfold perform at 1 in E. rewrite Hw1 in E.
  unfold bind at 1 in E. unfold getitem at 1 in E. rewrite Hsid in E.
  unfold ret at 1 in E. cbv zeta in E.
  match type of E with
  | _ = bind (perform ?o) ?k ?s1 =>
      assert (H : adds is_duplicate_check (bind (perform o) k) 1 1);
      [|destruct (H s1) as [H1 H2]]
  end.
  { apply adds_bind_first; [apply adds_perform_one; reflexivity|].
    intros n. unfold logger. silent. }
  rewrite <- E in H1, H2.
  cbn [trace] in H1, H2. rewrite occurrences_app, occurrences_one in H1, H2.
  change (is_duplicate_check (EvOp (page_goto pg (BASE_URL +:+ "/new-service"))))
    with false in H1, H2.
  cbv iota in H1, H2. lia.
Qed.
End Attempts.

Section AttemptsCalculus.
Context {W : Type} (every : bool).

Lemma attempts_silent {A} (m : M W A) :
  adds is_goto m 0 0 -> adds is_sleep m 0 0 -> adds is_duplicate_check m 0 0 ->
  attempts every m 0 0.
Proof.
  intros Hg Hs Hd s. exists 0%nat. destruct (Hg s), (Hs s), (Hd s).
  repeat split; try lia.
Qed.

Lemma attempts_one {A} (m : M W A) :
  adds is_goto m 1 1 -> adds is_sleep m 0 0 -> adds is_duplicate_check m 0 1 ->
  (every = true -> adds is_duplicate_check m 1 1) ->
  attempts every m 1 1.
Proof.
  intros Hg Hs Hd He s. exists 1%nat. destruct (Hg s), (Hs s), (Hd s).
  repeat split; try (simpl; lia).
  intros Hevery. destruct (He Hevery s). lia.
Qed.

Lemma attempts_bind_first {A B} (m : M W A) (k : A -> M W B) lo hi :
  attempts every m lo hi -> (forall a, attempts every (k a) 0 0) ->
  attempts every (bind m k) lo hi.
Proof.
  intros Hm Hk s. unfold bind. destruct (Hm s) as (n & Hn & Hg & Hs & Hd & He).
  destruct (m s) as [[e|a] s1]; cbn [fst snd] in *.
  - exists n. repeat split; auto; lia.
  - destruct (Hk a s1) as (n0 & Hn0 & Hg0 & Hs0 & Hd0 & He0).
    assert (n0 = 0%nat) as -> by lia. simpl in *.
    exists n. repeat split; try lia.
    intros Hevery. specialize (He Hevery). specialize (He0 Hevery). lia.
Qed.

Lemma attempts_try_except {A} (body : M W A) handler lo hi :
  attempts every body lo hi -> (forall e, attempts every (handler e) 0 0) ->
  attempts every (try_except body handler) lo hi.
Proof.
  intros Hb Hh s. unfold try_except. destruct (Hb s) as (n & Hn & Hg & Hs & Hd & He).
  destruct (body s) as [[e|a] s1]; cbn [fst snd] in *.
  - destruct (Hh e s1) as (n0 & Hn0 & Hg0 & Hs0 & Hd0 & He0).
    assert (n0 = 0%nat) as -> by lia. simpl in *.
    exists n. repeat split; try lia.
    intros Hevery. specialize (He Hevery). specialize (He0 Hevery). lia.
  - exists n. repeat split; auto; lia.
Qed.

Lemma attempts_try_finally {A} (body : M W A) fin lo hi :
  attempts every body lo hi -> attempts every fin 0 0 ->
  attempts every (try_finally body fin) lo hi.
Proof.
  intros Hb Hf s. unfold try_finally. destruct (Hb s) as (n & Hn & Hg & Hs & Hd & He).
  destruct (body s) as [r s1]; cbn [fst snd] in *.
  destruct (Hf s1) as (n0 & Hn0 & Hg0 & Hs0 & Hd0 & He0).
  assert (n0 = 0%nat) as -> by lia. simpl in *.
  destruct (fin s1) as [[e|[]] s2]; cbn [fst snd] in *; exists n; repeat split; try lia;
    intros Hevery; specialize (He Hevery); specialize (He0 Hevery); lia.
Qed.

(** The loop starts one attempt per iteration, at least one and at most
    [max_retries + 1], and sleeps once between two of them. *)
Lemma attempts_retry {A} (func : M W A) max_retries :
  0 <= max_retries -> attempts every func 1 1 ->
  attempts every (_retry_with_backoff func max_retries) 1 (Z.to_nat (max_retries + 1)).
Proof.
  intros Hmax Hf.
  assert (Hattempt : forall r, attempts every (attempt func r) 1 1).
  { intros r s. unfold attempt, bind.
    destruct ((if 0 <? r then logger WARNING "Retry attempt" else ret tt) s)
      as [[e|[]] s1] eqn:E.
    - destruct (0 <? r); discriminate.
    - assert (Hsame : forall g : event -> bool,
                 (forall lv tag, g (EvLog lv tag) = false) ->
                 occurrences g (trace s1) = occurrences g (trace s)).
      { intros g Hg. destruct (0 <? r); injection E as <-; [|reflexivity].
        simpl. rewrite occurrences_app, occurrences_one, Hg. lia. }
      destruct (Hf s1) as (n & Hn & Hg & Hs & Hd & He).
      rewrite (Hsame is_goto), (Hsame is_sleep), (Hsame is_duplicate_check) in *
        by reflexivity.
      exists n. repeat split; auto; lia. }
  intros s. unfold _retry_with_backoff.
  cut (forall r last s, 0 <= r -> r <= max_retries ->
         exists n : nat,
           (1 <= n <= Z.to_nat (max_retries + 1 - r))%nat /\
           occurrences is_goto (trace (snd (retry_loop func max_retries r last s)))
           = (occurrences is_goto (trace s) + n)%nat /\
           occurrences is_sleep (trace (snd (retry_loop func max_retries r last s)))
           = (occurrences is_sleep (trace s) + pred n)%nat /\
           (occurrences is_duplicate_check (trace (snd (retry_loop func max_retries r last s)))
            <= occurrences is_duplicate_check (trace s) + n)%nat /\
           (every = true ->
            occurrences is_duplicate_check (trace (snd (retry_loop func max_retries r last s)))
            = (occurrences is_duplicate_check (trace s) + n)%nat)).
  { intros Hloop. destruct (Hloop 0 None s ltac:(lia) Hmax) as (n & Hn & Hrest).
    exists n. split; [lia | exact Hrest]. }
  clear s.
  apply (retry_loop_cases func max_retries
           (fun r _ s res =>
              0 <= r -> r <= max_retries ->
              exists n : nat,
                (1 <= n <= Z.to_nat (max_retries + 1 - r))%nat /\
                occurrences is_goto (trace (snd res)) = (occurrences is_goto (trace s) + n)%nat /\
                occurrences is_sleep (trace (snd res))
                = (occurrences is_sleep (trace s) + pred n)%nat /\
                (occurrences is_duplicate_check (trace (snd res))
                 <= occurrences is_duplicate_check (trace s) + n)%nat /\
                (every = true ->
                 occurrences is_duplicate_check (trace (snd res))
                 = (occurrences is_duplicate_check (trace s) + n)%nat))).
  - intros; lia.
  - intros r _ s v s1 Hle Ha Hr _.
    destruct (Hattempt r s) as (n & Hn & Hrest). rewrite Ha in Hrest. cbn [fst snd] in *.
    exists n. split; [lia | exact Hrest].
  - intros r _ s e s1 Hle Ha _ Hr _.
    destruct (Hattempt r s) as (n & Hn & Hrest). rewrite Ha in Hrest. cbn [fst snd] in *.
    exists n. split; [lia | exact Hrest].
  - intros r _ s e s1 Hle Ha _ _ Hr _.
    destruct (Hattempt r s) as (n & Hn & Hg & Hs & Hd & He). rewrite Ha in *.
    cbn [fst snd] in *. unfold log_exhausted, logger, emit. cbn [snd trace].
    rewrite !occurrences_app, !occurrences_one. simpl.
    exists n. repeat split; try lia.
    intros Hevery. specialize (He Hevery). lia.
  - intros r _ s e s1 e' s2 Hle Ha _ Hnext Hb Hr _.
    destruct (Hattempt r s) as (n & Hn & Hrest). rewrite Ha in Hrest. cbn [fst snd] in *.
    destruct (back_off_cases (r + 1) s1) as [[_ Hb'] | [_ Hb']]; rewrite Hb' in Hb;
      [discriminate|]. injection Hb as _ <-.
    exists n. split; [lia | exact Hrest].
  - intros r _ s e s1 s2 Hle Ha _ Hnext Hb IH Hr _.
    destruct (Hattempt r s) as (n & Hn & Hg & Hs & Hd & He). rewrite Ha in *.
    cbn [fst snd] in *.
    destruct (back_off_cases (r + 1) s1) as [[_ Hb'] | [_ Hb']]; rewrite Hb' in Hb;
      [|discriminate]. injection Hb as <-.
    destruct (IH ltac:(lia) Hnext) as (n1 & Hn1 & Hg1 & Hs1 & Hd1 & He1).
    cbn [trace] in Hg1, Hs1, Hd1, He1.
    rewrite !occurrences_app, !occurrences_one in Hg1, Hs1, Hd1, He1.
    simpl in Hg1, Hs1, Hd1, He1.
    exists (n + n1)%nat. repeat split; try lia.
    intros Hevery. specialize (He Hevery). specialize (He1 Hevery). lia.
Qed.
End AttemptsCalculus.

(** C3 as stated fails: the confirmation times out on the first attempt, the
    row is retried after 2000 ms, and the duplicate check runs a second
    time. *)
Lemma duplicate_check_repeated_on_retry :
  sleeps (trace (snd (upload_row (platform:=scripted) portal_uploader_namespace
                        (invoice "S1" 10 "a.pdf")
                        (fresh [OkPage 1%nat; Ok; OkInt 0; Ok; Ok; Ok; Ok;
                                Fails (TimeoutError_ "Timeout 5000ms exceeded.")]))))
  = [2000] /\
  occurrences is_duplicate_check
    (trace (snd (upload_row (platform:=scripted) portal_uploader_namespace
                   (invoice "S1" 10 "a.pdf")
                   (fresh [OkPage 1%nat; Ok; OkInt 0; Ok; Ok; Ok; Ok;
                           Fails (TimeoutError_ "Timeout 5000ms exceeded.")]))))
  = 2%nat.
Proof. split; vm_compute; reflexivity. Qed.

Section EveryAttempt.
Context {platform : Platform}.
Variable ns : namespace.

(** What [upload_row] does once its page is open, in attempts. *)
Lemma upload_row_attempts (every : bool) (r : row) (s : state World) (pg : page)
    (w : World) :
  driver context_new_page (world s) = (inr pg, w) ->
  (every = true ->
   is_Some (r !! "service_id") /\
   forall p url w0, exists w1, driver (page_goto p url) w0 = (inr tt, w1)) ->
  exists n : nat,
    (1 <= n <= 4)%nat /\
    occurrences is_goto (trace (snd (upload_row ns r s)))
    = (occurrences is_goto (trace s) + n)%nat /\
    occurrences is_sleep (trace (snd (upload_row ns r s)))
    = (occurrences is_sleep (trace s) + pred n)%nat /\
    (occurrences is_duplicate_check (trace (snd (upload_row ns r s)))
     <= occurrences is_duplicate_check (trace s) + n)%nat /\
    (every = true ->
     occurrences is_duplicate_check (trace (snd (upload_row ns r s)))
     = (occurrences is_duplicate_check (trace s) + n)%nat).
Proof.
  intros Hpage Hevery.
  remember (upload_row ns r s) as res eqn:E. unfold upload_row in E.
  unfold bind at 1 in E. unfold perform at 1 in E. rewrite Hpage in E.
  match type of E with
  | _ = try_finally ?b ?f ?s1 =>
      assert (H : attempts every (try_finally b f) 1 4);
      [|destruct (H s1) as (n & Hn & Hg & Hs & Hd & He)]
  end.
  { apply attempts_try_finally; [|apply attempts_silent; silent].
    apply attempts_try_except.
    - apply attempts_bind_first.
      + apply (attempts_retry every _ 3); [lia|].
        apply attempts_one;
          [apply do_upload_goto | apply do_upload_sleeps | apply do_upload_duplicate_check |].
        intros Ee. destruct (Hevery Ee) as [Hsid Hgoto].
        apply do_upload_checks_once; assumption.
      + intros result. apply attempts_silent; unfold logger; silent.
    - intros e. apply attempts_silent; unfold logger; silent. }
  rewrite <- E in Hg, Hs, Hd, He.
  cbn [trace] in Hg, Hs, Hd, He. rewrite !occurrences_app, !occurrences_one in Hg, Hs, Hd, He.
  cbn [is_goto is_sleep is_duplicate_check] in Hg, Hs, Hd, He.
  exists n. repeat split; try lia.
  intros Ee. specialize (He Ee). lia.
Qed.

(** C3, amended.  The retry policy wraps the whole of [do_upload]: every
    attempt starts again with the navigation to the entry page.  Once its
    page is open a row is attempted [n] times, between 1 and
    [max_retries + 1 = 4]; it sleeps once between two attempts, so it is
    navigated once more than it is backed off; and the duplicate check runs
    at most once per attempt.  For a row with a [service_id], on a portal
    whose entry page always loads, the duplicate check runs on every attempt:
    it is executed again on each retry. *)
Theorem duplicate_check_once_per_attempt (r : row) (s : state World) (pg : page)
    (w : World) :
  driver context_new_page (world s) = (inr pg, w) ->
  exists n : nat,
    (1 <= n <= 4)%nat /\
    occurrences is_goto (trace (snd (upload_row ns r s)))
    = (occurrences is_goto (trace s) + n)%nat /\
    (occurrences is_sleep (trace (snd (upload_row ns r s))) + 1
     = occurrences is_sleep (trace s) + n)%nat /\
    (occurrences is_duplicate_check (trace (snd (upload_row ns r s)))
     <= occurrences is_duplicate_check (trace s) + n)%nat /\
    (is_Some (r !! "service_id") ->
     (forall p url w0, exists w1, driver (page_goto p url) w0 = (inr tt, w1)) ->
     occurrences is_duplicate_check (trace (snd (upload_row ns r s)))
     = (occurrences is_duplicate_check (trace s) + n)%nat).
Proof.
  intros Hpage.
  destruct (upload_row_attempts false r s pg w Hpage ltac:(discriminate))
    as (n & Hn & Hg & Hs & Hd & _).
  exists n. repeat split; try lia.
  intros Hsid Hgoto.
  destruct (upload_row_attempts true r s pg w Hpage ltac:(auto))
    as (n' & _ & Hg' & _ & _ & He).
  rewrite (He eq_refl). lia.
Qed.
End EveryAttempt.

(** [duplicate_check_once_per_attempt] for a row that is never confirmed:
    four navigations, three delays, four duplicate checks. *)
Lemma duplicate_check_once_per_attempt_witness :
  exists n : nat,
    (1 <= n <= 4)%nat /\
    occurrences is_goto
      (trace (snd (upload_row (platform:=unconfirmed_portal) portal_uploader_namespace
                     (invoice "S1" 10 "a.pdf") (fresh tt))))
    = (occurrences is_goto (trace (fresh tt)) + n)%nat /\
    (occurrences is_sleep
       (trace (snd (upload_row (platform:=unconfirmed_portal) portal_uploader_namespace
                      (invoice "S1" 10 "a.pdf") (fresh tt)))) + 1
     = occurrences is_sleep (trace (fresh tt)) + n)%nat /\
    (occurrences is_duplicate_check
       (trace (snd (upload_row (platform:=unconfirmed_portal) portal_uploader_namespace
                      (invoice "S1" 10 "a.pdf") (fresh tt))))
     <= occurrences is_duplicate_check (trace (fresh tt)) + n)%nat /\
    (is_Some (invoice "S1" 10 "a.pdf" !! "service_id") ->
     (forall p url w0, exists w1,
        driver (Platform:=unconfirmed_portal) (page_goto p url) w0 = (inr tt, w1)) ->
     occurrences is_duplicate_check
       (trace (snd (upload_row (platform:=unconfirmed_portal) portal_uploader_namespace
                      (invoice "S1" 10 "a.pdf") (fresh tt))))
     = (occurrences is_duplicate_check (trace (fresh tt)) + n)%nat).
Proof.
  apply (duplicate_check_once_per_attempt (platform:=unconfirmed_portal)
           portal_uploader_namespace (invoice "S1" 10 "a.pdf") (fresh tt) 0%nat tt).
  reflexivity.
Defined.

(** The counts of that run. *)
Lemma unconfirmed_row_is_checked_four_times :
  is_Some (invoice "S1" 10 "a.pdf" !! "service_id") /\
  (forall p url w0, exists w1,
     driver (Platform:=unconfirmed_portal) (page_goto p url) w0 = (inr tt, w1)) /\
  occurrences is_goto
    (trace (snd (upload_row (platform:=unconfirmed_portal) portal_uploader_namespace
                   (invoice "S1" 10 "a.pdf") (fresh tt)))) = 4%nat /\
  sleeps
    (trace (snd (upload_row (platform:=unconfirmed_portal) portal_uploader_namespace
                   (invoice "S1" 10 "a.pdf") (fresh tt)))) = [2000; 4000; 8000] /\
  occurrences is_duplicate_check
    (trace (snd (upload_row (platform:=unconfirmed_portal) portal_uploader_namespace
                   (invoice "S1" 10 "a.pdf") (fresh tt)))) = 4%nat.
Proof.
  split; [vm_compute; eauto|]. split; [intros p url []; exists tt; reflexivity|].
  repeat split; vm_compute; reflexivity.
Qed.


(** ** The Session Manager *)

(** Proves that [__aenter__], the login included, adds no event of a given
    kind. *)
Ltac session_silent :=
  unfold __aenter__;
  do 3 (apply adds_bind_silent; [silent|]; intros ?);
  (apply adds_bind_silent; [|intros _; apply adds_ret]);
  match goal with |- adds _ (if ?b then _ else _) _ _ => destruct b end;
  unfold logger;
  [ silent
  | do 2 (apply adds_bind_silent; [silent|]; intros _);
    unfold _login;
    (apply adds_bind_silent; [silent|]); intros [[|? ?]|];
    (apply adds_bind_silent; [silent|]); intros [[|? ?]|];
    try apply adds_raise;
    (apply adds_bind_silent; [silent|]); intros ?;
    apply adds_try_finally; unfold logger; silent ].


Section Session.
Context {platform : Platform}.

(** A session that has been acquired holds all three handles. *)
Lemma aenter_handles self :
  returns_only (__aenter__ self)
    (fun u => context u = true /\ browser u = true /\ playwright u = true).
Proof.
  unfold __aenter__.
  repeat (eapply returns_bind; [apply returns_any | intros ? _]).
  apply returns_ret. simpl. auto.
Qed.

(** Acquisition releases nothing, whether it succeeds or fails. *)
Lemma aenter_releases_nothing self : adds is_release_step (__aenter__ self) 0 0.
Proof. session_silent. Qed.

(** [__aexit__] on an acquired session makes the release calls in order up
    to the first one that raises, and raises what that one raised. *)
Lemma aexit_up_to_first_failure u (s : state World) k failure w :
  context u = true -> browser u = true -> playwright u = true ->
  up_to_first_failure release_ops (world s) = (k, failure, w) ->
  __aexit__ u s
  = (match failure with Some e => inl e | None => inr tt end,
     {| world := w; trace := trace s ++ take k release_steps |}) /\
  (1 <= k <= 3)%nat /\ (failure = None -> k = 3%nat).
Proof.
  intros Hc Hb Hp. unfold __aexit__, bind, perform. rewrite Hc, Hb, Hp.
  unfold release_ops, up_to_first_failure.
  destruct (driver context_close (world s)) as [[e1|[]] w1]; cbn [world trace].
  { intros [= <- <- <-]. repeat split; try lia; discriminate. }
  destruct (driver browser_close w1) as [[e2|[]] w2]; cbn [world trace].
  { intros [= <- <- <-]. rewrite <- app_assoc. repeat split; try lia; discriminate. }
  destruct (driver playwright_stop w2) as [[e3|[]] w3]; cbn [world trace];
    intros [= <- <- <-]; rewrite <- !app_assoc; repeat split; try lia; discriminate.
Qed.

(** C7, amended.  When acquisition fails, release is not entered: the scope
    ends with the exception and the state of [__aenter__], which makes no
    release call.  Once the session has been acquired, release is entered
    on every exit path of the scope's body, whether the body returns or
    raises: the context is closed, then the browser, then the driver is
    stopped, in that order and up to the first of the three calls that
    raises, whose exception is then what the scope raises; when no release
    call raises all three are made and the result or exception of the body
    is passed on. *)
Theorem release_in_order {A} (self : uploader) (body : uploader -> M World A)
    (s : state World) :
  (forall e s1,
     __aenter__ self s = (inl e, s1) ->
     async_with self body s = (inl e, s1) /\
     occurrences is_release_step (trace s1) = occurrences is_release_step (trace s)) /\
  (forall entered s1 r s2,
     __aenter__ self s = (inr entered, s1) ->
     body entered s1 = (r, s2) ->
     exists k failure w,
       up_to_first_failure release_ops (world s2) = (k, failure, w) /\
       async_with self body s
       = (match failure with Some e => inl e | None => r end,
          {| world := w; trace := trace s2 ++ take k release_steps |}) /\
       (1 <= k <= 3)%nat /\
       (failure = None -> k = 3%nat)).
Proof.
  split.
  - intros e s1 Henter. split.
    + unfold async_with, bind. rewrite Henter. reflexivity.
    + destruct (aenter_releases_nothing self s) as [H1 H2]. rewrite Henter in H1, H2.
      cbn [snd] in H1, H2. lia.
  - intros entered s1 r s2 Henter Hbody.
    destruct (aenter_handles self _ _ _ Henter) as (Hc & Hb & Hp).
    destruct (up_to_first_failure release_ops (world s2)) as [[k failure] w] eqn:Hrel.
    destruct (aexit_up_to_first_failure entered s2 k failure w Hc Hb Hp Hrel)
      as (Hexit & Hk & Hall).
    exists k, failure, w. split; [reflexivity|]. split; [|auto].
    unfold async_with, bind, try_finally. rewrite Henter, Hbody, Hexit.
    destruct failure; reflexivity.
Qed.
End Session.

(** C7 as stated fails: closing the context raises, and neither the browser
    is closed nor the driver stopped. *)
Lemma release_stops_at_failed_step :
  trace (snd (async_with (platform:=scripted) (PortalUploader true) (fun _ => ret tt)
                (fresh [Ok; Ok; OkBool true; Ok;
                        Fails (Exn PlaywrightError "Target closed")])))
  = [EvOp async_playwright_start; EvOp (chromium_launch true);
     EvOp (path_exists "auth.json");
     EvLog INFO "[AUTH] Using saved cookies from previous session";
     EvOp (browser_new_context (Some "auth.json"));
     EvOp context_close].
Proof. vm_compute. reflexivity. Qed.

(** Nor is anything released when acquisition fails after the browser has
    been launched: no saved session and no credentials. *)
Lemma no_release_when_login_fails :
  async_with (platform:=scripted) (PortalUploader true) (fun _ => ret tt)
    (fresh [Ok; Ok; OkBool false; Ok; OkEnv None; OkEnv None])
  = (inl (Exn ValueError
            "Missing login credentials. Set PORTAL_USERNAME and PORTAL_PASSWORD environment variables."),
     {| world := [];
        trace := [EvOp async_playwright_start; EvOp (chromium_launch true);
                  EvOp (path_exists "auth.json");
                  EvLog INFO "[AUTH] No saved session found, performing fresh login";
                  EvOp (browser_new_context None);
                  EvOp (os_getenv "PORTAL_USERNAME");
                  EvOp (os_getenv "PORTAL_PASSWORD")] |}).
Proof. vm_compute. reflexivity. Qed.

(** A body that raises on a session whose release calls all succeed: the
    three calls are made and the exception of the body is passed on. *)
Lemma release_after_failed_body :
  async_with (platform:=scripted) (PortalUploader true)
    (fun _ => raise (A:=unit) (Exn PlaywrightError "Page crashed"))
    (fresh [Ok; Ok; OkBool true; Ok])
  = (inl (Exn PlaywrightError "Page crashed"),
     {| world := [];
        trace := [EvOp async_playwright_start; EvOp (chromium_launch true);
                  EvOp (path_exists "auth.json");
                  EvLog INFO "[AUTH] Using saved cookies from previous session";
                  EvOp (browser_new_context (Some "auth.json"));
                  EvOp context_close; EvOp browser_close; EvOp playwright_stop] |}).
Proof. vm_compute. reflexivity. Qed.

(** ** The Upload Orchestrator *)

Lemma pick_None {A} k (l : list A) : pick k l = None -> l = [].
Proof.
  unfold pick. destruct l as [|x l]; [reflexivity|].
  destruct ((x :: l) !! (k mod length (x :: l))%nat) eqn:E; [discriminate|].
  apply lookup_ge_None in E.
  pose proof (Nat.mod_upper_bound k (length (x :: l)) ltac:(simpl; lia)). lia.
Qed.

Lemma pick_perm {A} k (l : list A) x rest : pick k l = Some (x, rest) -> l ≡ₚ x :: rest.
Proof.
  unfold pick. destruct (l !! (k mod length l)%nat) eqn:E; [|discriminate].
  intros [= <- <-]. rewrite <- (take_drop_middle _ _ _ E) at 1.
  symmetry. apply Permutation_middle.
Qed.

Section Gather.
Context {platform : Platform}.
Variable upload : row -> M World outcome.

Lemma run_tasks_step schedule p s :
  run_tasks upload schedule p s =
  match pick (hd 0%nat schedule) (running p) with
  | None =>
      match waiters p with
      | [] => (Results (omap id (slots p)), s)
      | _ => (Pending, s)
      end
  | Some ((i, r), rest) =>
      match upload r s with
      | (inl e, s') => (Exception e, s')
      | (inr o, s') =>
          run_tasks upload (tl schedule)
            (semaphore_release
               {| sem_value := sem_value p; waiters := waiters p; running := rest;
                  slots := <[i := Some o]> (slots p) |})
            s'
      end
  end.
Proof.
  rewrite run_tasks_equation_1. unfold run_tasks_unfold_clause_1.
  generalize (inspect (pick (hd 0%nat schedule) (running p))).
  intros [[[[i r] rest]|] Hb]; rewrite Hb; reflexivity.
Qed.

Lemma pool_ok_perm rows pend pend' slots :
  pend ≡ₚ pend' -> pool_ok upload rows pend slots -> pool_ok upload rows pend' slots.
Proof.
  intros Hp (Hlen & Hnd & Hpend & Hnone & Hsome).
  repeat split; auto.
  - rewrite <- Hp. exact Hnd.
  - rewrite <- Hp in H. apply (Hpend _ _ H).
  - rewrite <- Hp in H. apply (Hpend _ _ H).
  - intros i Hi. rewrite <- Hp. auto.
Qed.

(** A task completes with an outcome: its slot is filled, the others stay. *)
Lemma pool_ok_complete rows i r rest slots o :
  pool_ok upload rows ((i, r) :: rest) slots -> produced upload r o ->
  pool_ok upload rows rest (<[i := Some o]> slots).
Proof.
  intros (Hlen & Hnd & Hpend & Hnone & Hsome) Hprod.
  rewrite fmap_cons in Hnd. apply NoDup_cons in Hnd as [Hfresh Hnd]. simpl in Hfresh.
  destruct (Hpend i r ltac:(left)) as [Hrow Hslot].
  assert (Hlt : (i < length slots)%nat) by (apply lookup_lt_Some in Hslot; exact Hslot).
  repeat split.
  - rewrite length_insert. exact Hlen.
  - exact Hnd.
  - destruct (Hpend i0 r0 ltac:(right; exact H)) as [Hr _]. exact Hr.
  - assert (i0 <> i).
    { intros ->. apply Hfresh. apply list_elem_of_fmap. exists (i, r0). auto. }
    rewrite list_lookup_insert_ne by congruence.
    destruct (Hpend i0 r0 ltac:(right; exact H)) as [_ Hs]. exact Hs.
  - intros j Hj. destruct (decide (j = i)) as [->|Hne].
    + rewrite list_lookup_insert_eq in Hj by exact Hlt. discriminate.
    + rewrite list_lookup_insert_ne in Hj by congruence.
      specialize (Hnone j Hj). rewrite fmap_cons in Hnone.
      apply elem_of_cons in Hnone as [Heq|Hin]; [simpl in Heq; congruence | exact Hin].
  - intros j o' Hj. destruct (decide (j = i)) as [->|Hne].
    + rewrite list_lookup_insert_eq in Hj by exact Hlt. injection Hj as <-. eauto.
    + rewrite list_lookup_insert_ne in Hj by congruence. eauto.
Qed.

Lemma omap_id_filled (slots : list (option outcome)) :
  (forall i, slots !! i <> Some None) ->
  slots = Some <$> omap id slots.
Proof.
  induction slots as [|[o|] slots IH]; intros Hfilled.
  - reflexivity.
  - simpl. f_equal. apply IH. intros i. apply (Hfilled (S i)).
  - exfalso. apply (Hfilled 0%nat). reflexivity.
Qed.

(** Every task is done: the results are the outcomes of the rows, in the
    order of the rows. *)
Lemma pool_ok_done rows slots :
  pool_ok upload rows [] slots -> Forall2 (produced upload) rows (omap id slots).
Proof.
  intros (Hlen & _ & _ & Hnone & Hsome).
  assert (Hfilled : forall i, slots !! i <> Some None).
  { intros i Hi. specialize (Hnone i Hi). simpl in Hnone. inversion Hnone. }
  pose proof (omap_id_filled slots Hfilled) as Hslots.
  apply Forall2_same_length_lookup. split.
  - rewrite <- Hlen. rewrite Hslots at 1. rewrite length_fmap. reflexivity.
  - intros i r o Hr Ho.
    assert (Hs : slots !! i = Some (Some o)).
    { rewrite Hslots, list_lookup_fmap, Ho. reflexivity. }
    destruct (Hsome i o Hs) as (r' & Hr' & Hprod). congruence.
Qed.

Lemma imap_indices (rows : list row) k :
  (imap (fun i r => ((k + i)%nat, r)) rows).*1 = seq k (length rows).
Proof.
  revert k. induction rows as [|r rows IH]; intros k; [reflexivity|].
  rewrite imap_cons. simpl. rewrite Nat.add_0_r. f_equal.
  rewrite <- (IH (S k)). f_equal. apply imap_ext. intros i x _. simpl. f_equal. lia.
Qed.

Lemma imap_indices_0 (rows : list row) :
  (imap (fun i r => (i, r)) rows).*1 = seq 0 (length rows).
Proof. exact (imap_indices rows 0). Qed.

(** Before any task has run. *)
Lemma pool_ok_init rows :
  pool_ok upload rows (imap (fun i r => (i, r)) rows) (replicate (length rows) None).
Proof.
  repeat split.
  - apply length_replicate.
  - rewrite imap_indices_0. apply NoDup_seq.
  - apply list_elem_of_lookup in H as [j Hj]. rewrite list_lookup_imap in Hj.
    destruct (rows !! j) eqn:E; simpl in Hj; [|discriminate].
    injection Hj as <- <-. exact E.
  - apply list_elem_of_lookup in H as [j Hj]. rewrite list_lookup_imap in Hj.
    destruct (rows !! j) eqn:E; simpl in Hj; [|discriminate].
    injection Hj as <- <-. apply lookup_replicate. split; [reflexivity|].
    apply lookup_lt_Some in E. exact E.
  - intros i Hi. apply lookup_replicate in Hi as [_ Hi].
    rewrite imap_indices_0. apply elem_of_seq. lia.
  - intros i o Hi. apply lookup_replicate in Hi as [[=] _].
Qed.

Lemma semaphore_acquire_pending t p :
  pending (semaphore_acquire t p) ≡ₚ pending p ++ [t] /\
  slots (semaphore_acquire t p) = slots p.
Proof.
  unfold semaphore_acquire, pending.
  destruct (waiters p) as [|w ws] eqn:Hw; [destruct (0 <? sem_value p)|]; simpl;
    split; try reflexivity.
  - rewrite !app_nil_r. reflexivity.
  - rewrite app_nil_r. reflexivity.
  - rewrite <- app_assoc. reflexivity.
Qed.

Lemma semaphore_release_pending p :
  pending (semaphore_release p) = pending p /\
  slots (semaphore_release p) = slots p.
Proof.
  unfold semaphore_release, pending.
  destruct (waiters p) as [|w ws]; simpl; split; try reflexivity.
  rewrite <- app_assoc. reflexivity.
Qed.

Lemma admitted_pending tasks p :
  pending (fold_left (fun p t => semaphore_acquire t p) tasks p) ≡ₚ pending p ++ tasks /\
  slots (fold_left (fun p t => semaphore_acquire t p) tasks p) = slots p.
Proof.
  revert p. induction tasks as [|t tasks IH]; intros p; simpl.
  - rewrite app_nil_r. auto.
  - destruct (IH (semaphore_acquire t p)) as [Hp Hs].
    destruct (semaphore_acquire_pending t p) as [Hp' Hs'].
    rewrite Hp, Hp', Hs, Hs', <- app_assoc. auto.
Qed.

(** The results of the task loop are the outcomes of the rows, by
    position, whatever the schedule. *)
Lemma run_tasks_results rows schedule p s results s' :
  pool_ok upload rows (pending p) (slots p) ->
  run_tasks upload schedule p s = (Results results, s') ->
  Forall2 (produced upload) rows results.
Proof.
  remember (length (pending p)) as n eqn:Hn.
  revert schedule p s Hn. induction n as [|n IH]; intros schedule p s Hn Hok;
    rewrite run_tasks_step.
  - unfold pending in Hn. symmetry in Hn. rewrite length_app in Hn.
    assert (Hr : running p = []) by (apply length_zero_iff_nil; lia).
    assert (Hw : waiters p = []) by (apply length_zero_iff_nil; lia).
    unfold pending in Hok. rewrite Hr, Hw in *. simpl.
    intros [= <- <-]. apply pool_ok_done. exact Hok.
  - destruct (pick (hd 0%nat schedule) (running p)) as [[[i r] rest]|] eqn:Hpick.
    + destruct (upload r s) as [[e|o] s1] eqn:Hup; [discriminate|].
      apply IH.
      * destruct (semaphore_release_pending
                    {| sem_value := sem_value p; waiters := waiters p; running := rest;
                       slots := <[i := Some o]> (slots p) |}) as [-> _].
        unfold pending in *. simpl. apply pick_length in Hpick.
        rewrite length_app in *. lia.
      * destruct (semaphore_release_pending
                    {| sem_value := sem_value p; waiters := waiters p; running := rest;
                       slots := <[i := Some o]> (slots p) |}) as [-> ->].
        unfold pending in *. simpl.
        apply (pool_ok_complete rows i r); [|exists s, s1; exact Hup].
        eapply pool_ok_perm; [|exact Hok].
        apply pick_perm in Hpick. rewrite Hpick. reflexivity.
    + apply pick_None in Hpick. unfold pending in Hn. rewrite Hpick in Hn. simpl in Hn.
      destruct (waiters p); [discriminate | intros [=]].
Qed.

(** What [gather] returns to [main] is one outcome per row, at the position
    of its row, produced by [upload] for that row. *)
Lemma gather_results schedule semaphore rows s results s' :
  gather upload schedule semaphore rows s = (Results results, s') ->
  Forall2 (produced upload) rows results.
Proof.
  unfold gather. apply run_tasks_results.
  destruct (admitted_pending (imap (fun i r => (i, r)) rows)
              {| sem_value := semaphore; waiters := []; running := [];
                 slots := replicate (length rows) None |}) as [Hp ->].
  simpl. eapply pool_ok_perm; [symmetry; exact Hp|]. simpl. apply pool_ok_init.
Qed.
End Gather.

(** ** The Report Assembler *)

Lemma append_result_columns results d :
  fold_left append_result results d
  = {| rd_status := rd_status d ++ ((fun o => CStr (status_str (o_status o))) <$> results);
       rd_portal_id := rd_portal_id d ++ ((fun o => opt_cell (o_portal_id o)) <$> results);
       rd_error_msg := rd_error_msg d ++ ((fun o => opt_cell (o_error_msg o)) <$> results);
       rd_processed_ts := rd_processed_ts d ++ ((fun o => CStr (o_processed_ts o)) <$> results) |}.
Proof.
  revert d. induction results as [|o results IH]; intros d; simpl.
  - rewrite !app_nil_r. destruct d; reflexivity.
  - rewrite IH. simpl. rewrite <- !app_assoc. reflexivity.
Qed.

Lemma merge_columns (rows : list row) (results : list outcome) :
  zip_with (fun r v => <["processed_ts" := v]> r)
    (zip_with (fun r v => <["error_msg" := v]> r)
       (zip_with (fun r v => <["portal_id" := v]> r)
          (zip_with (fun r v => <["status" := v]> r) rows
             ((fun o => CStr (status_str (o_status o))) <$> results))
          ((fun o => opt_cell (o_portal_id o)) <$> results))
       ((fun o => opt_cell (o_error_msg o)) <$> results))
    ((fun o => CStr (o_processed_ts o)) <$> results)
  = zip_with merge rows results.
Proof.
  revert results. induction rows as [|r rows IH]; intros [|o results]; simpl;
    try reflexivity.
  rewrite IH. reflexivity.
Qed.

(** The table [assign] builds: each row merged with the outcome at its
    position. *)
Lemma assign_rows (df : DataFrame) results :
  length results = length (df_rows df) ->
  exists table,
    assign (fold_left append_result results
              {| rd_status := []; rd_portal_id := []; rd_error_msg := [];
                 rd_processed_ts := [] |}) df = inr table /\
    df_rows table = zip_with merge (df_rows df) results.
Proof.
  intros Hlen. rewrite append_result_columns. simpl.
  unfold assign, set_column. simpl.
  rewrite !length_fmap, Hlen, Nat.eqb_refl. simpl.
  rewrite length_zip_with, length_fmap, Hlen, Nat.min_id, Nat.eqb_refl. simpl.
  rewrite length_zip_with, length_zip_with, !length_fmap, Hlen, !Nat.min_id, Nat.eqb_refl.
  simpl.
  rewrite !length_zip_with, !length_fmap, Hlen, !Nat.min_id, Nat.eqb_refl.
  eexists. split; [reflexivity|]. simpl. apply merge_columns.
Qed.

Section MainFacts.
Context {platform : Platform}.
Variable ns : namespace.

(** What [report] does when it returns: it writes the merged table and
    returns 2 or 0. *)
Lemma report_returns df results s code s' :
  length results = length (df_rows df) ->
  report df results s = (inr code, s') ->
  exists path table,
    trace s' = trace s ++ [EvOp (to_csv path table); EvLog INFO "[SUMMARY_WRITE]";
                           EvLog INFO "[SUMMARY]"] /\
    df_rows table = zip_with merge (df_rows df) results /\
    code = (if 0 <? n_ERROR (fold_left count_status results
                               {| n_OK := 0; n_SKIP := 0; n_ERROR := 0 |})
            then 2 else 0).
Proof.
  intros Hlen. destruct (assign_rows df results Hlen) as (table & Hassign & Hrows).
  unfold report. cbv zeta. unfold bind at 1. unfold lift at 1. rewrite Hassign.
  unfold bind, perform, logger, emit. simpl.
  destruct (driver _ (world s)) as [[e|[]] w1]; [discriminate|]. simpl.
  destruct (0 <? n_ERROR _); intros [= <- <-]; simpl;
    do 2 eexists; rewrite <- !app_assoc; repeat split; eauto.
Qed.

(** A call of [main] that got past startup and returned went through
    acquisition, the tasks, release and the report. *)
Lemma main_returns schedule csv_path headless concurrency s df semaphore code :
  fst (startup csv_path concurrency s) = inr (inr (df, semaphore)) ->
  fst (main ns schedule csv_path headless concurrency s) = Return code ->
  exists s2 results s3 s4,
    gather (upload_row ns) schedule semaphore (df_rows df) s2 = (Results results, s3) /\
    report df results s4 = (inr code, snd (main ns schedule csv_path headless concurrency s)).
Proof.
  intros Hstart Hret.
  destruct (main ns schedule csv_path headless concurrency s) as [c s'] eqn:Hmain.
  simpl in Hret. subst c. cbn [snd]. unfold main in Hmain.
  change process_row with (upload_row (platform:=platform)) in Hmain.
  destruct (startup csv_path concurrency s) as [[e|[c|[df' sem']]] s1];
    simpl in Hstart; try discriminate.
  injection Hstart as -> ->.
  destruct (__aenter__ (PortalUploader headless) s1) as [[e|u] s2]; [discriminate|].
  destruct (gather (upload_row ns) schedule semaphore (df_rows df) s2)
    as [[results|e|] s3] eqn:Hg.
  - unfold bind in Hmain.
    destruct (__aexit__ u s3) as [[e|[]] s4]; [discriminate|].
    destruct (report df results s4) as [[e|c] s5] eqn:Hr; [discriminate|].
    injection Hmain as -> ->. eauto 8.
  - destruct (__aexit__ u s3) as [[e'|[]] s4]; discriminate.
  - discriminate.
Qed.

End MainFacts.

Section Startup.
Context {platform : Platform}.

(** [startup] touches nothing but the input file, returns early only with
    1, and hands the concurrency on as the value of the semaphore. *)
Lemma startup_shape csv_path concurrency (s : state World) :
  (exists evs,
     trace (snd (startup csv_path concurrency s)) = trace s ++ evs /\
     Forall (fun ev => is_startup_event ev = true) evs) /\
  (forall code, fst (startup csv_path concurrency s) = inr (inl code) -> code = 1) /\
  (forall df semaphore,
     fst (startup csv_path concurrency s) = inr (inr (df, semaphore)) ->
     semaphore = concurrency /\ 0 <= concurrency).
Proof.
  unfold startup, bind, try_except, perform, logger, emit, Semaphore, ret, raise.
  simpl.
  destruct (driver (path_exists csv_path) (world s)) as [[e|[]] w1]; simpl.
  - split; [|split; [discriminate|discriminate]].
    eexists. rewrite <- !app_assoc. split; [reflexivity | repeat constructor].
  - destruct (driver (read_csv csv_path) w1) as [[e|df] w2]; simpl.
    + split; [|split; [intros ? [= <-]; reflexivity | discriminate]].
      eexists. rewrite <- !app_assoc. split; [reflexivity | repeat constructor].
    + destruct (filter _ REQUIRED_COLUMNS); simpl.
      * destruct (Z.ltb_spec concurrency 0); simpl.
        -- split; [|split; [discriminate|discriminate]].
           eexists. rewrite <- !app_assoc. split; [reflexivity | repeat constructor].
        -- split; [|split; [discriminate | intros ? ? [= <- <-]; auto]].
           eexists. rewrite <- !app_assoc. split; [reflexivity | repeat constructor].
      * split; [|split; [intros ? [= <-]; reflexivity | discriminate]].
        eexists. rewrite <- !app_assoc. split; [reflexivity | repeat constructor].
  - split; [|split; [intros ? [= <-]; reflexivity | discriminate]].
    eexists. rewrite <- !app_assoc. split; [reflexivity | repeat constructor].
Qed.

(** With a negative concurrency [startup] never hands a table on: it returns
    1, or raises, and it touches nothing but the input file. *)
Lemma startup_rejects_negative csv_path concurrency (s : state World) :
  concurrency < 0 ->
  (fst (startup csv_path concurrency s) = inr (inl 1) \/
   exists e, fst (startup csv_path concurrency s) = inl e) /\
  exists evs,
    trace (snd (startup csv_path concurrency s)) = trace s ++ evs /\
    Forall (fun ev => is_startup_event ev = true) evs.
Proof.
  intros Hneg. unfold startup, bind, try_except, perform, logger, emit, Semaphore, ret, raise.
  simpl.
  destruct (driver (path_exists csv_path) (world s)) as [[e|[]] w1]; simpl.
  - split; [eauto|]. eexists. rewrite <- !app_assoc. split; [reflexivity|].
    repeat constructor.
  - destruct (driver (read_csv csv_path) w1) as [[e|df] w2]; simpl.
    + split; [auto|]. eexists. rewrite <- !app_assoc. split; [reflexivity|].
      repeat constructor.
    + destruct (filter _ REQUIRED_COLUMNS); simpl.
      * destruct (Z.ltb_spec concurrency 0); [|lia]. simpl.
        split; [eauto|]. eexists. rewrite <- !app_assoc. split; [reflexivity|].
        repeat constructor.
      * split; [auto|]. eexists. rewrite <- !app_assoc. split; [reflexivity|].
        repeat constructor.
  - split; [auto|]. eexists. rewrite <- !app_assoc. split; [reflexivity|].
    repeat constructor.
Qed.

(** C8, amended.  Every run invoked with a negative concurrency is rejected
    at startup, by an exit code 1 or by the exception the semaphore
    constructor raises: the session is not acquired and no row task is
    dispatched, the run touches nothing but the input file. *)
Theorem negative_concurrency_rejected (ns : namespace) schedule csv_path headless
    concurrency (s : state World) :
  concurrency < 0 ->
  (fst (main ns schedule csv_path headless concurrency s) = Return 1 \/
   exists e, fst (main ns schedule csv_path headless concurrency s) = Raises e) /\
  exists evs,
    trace (snd (main ns schedule csv_path headless concurrency s)) = trace s ++ evs /\
    Forall (fun ev => is_startup_event ev = true) evs.
Proof.
  intros Hneg.
  destruct (startup_rejects_negative csv_path concurrency s Hneg) as [Hres Htrace].
  unfold main.
  destruct (startup csv_path concurrency s) as [[e|[c|[df sem]]] s1]; simpl in *.
  - split; [eauto | exact Htrace].
  - destruct Hres as [[= ->] | [e [=]]]. split; [auto | exact Htrace].
  - destruct Hres as [[=] | [e [=]]].
Qed.
End Startup.

(** C8 as stated fails: with a concurrency of 0 the run is not rejected.  The
    session is acquired, the row task is handed to [gather], and [main] waits
    for ever for a task that cannot pass the semaphore. *)
Lemma zero_concurrency_not_rejected :
  main (platform:=scripted) portal_uploader_namespace [] "services.csv" true 0
    (fresh [OkBool true; OkTable one_invoice])
  = (Never,
     {| world := [];
        trace := [EvLog INFO "[INIT] invoice_bot starting up";
                  EvOp (path_exists "services.csv");
                  EvOp (read_csv "services.csv"); EvLog INFO "[READ_CSV]";
                  EvOp async_playwright_start; EvOp (chromium_launch true);
                  EvOp (path_exists "auth.json");
                  EvLog INFO "[AUTH] Using saved cookies from previous session";
                  EvOp (browser_new_context (Some "auth.json"))] |}).
Proof. vm_compute. reflexivity. Qed.

(** [negative_concurrency_rejected] at a concurrency of -1 on a readable
    input file. *)
Lemma negative_concurrency_rejected_witness :
  (fst (main (platform:=scripted) portal_uploader_namespace [] "services.csv" true (-1)
          (fresh [OkBool true; OkTable one_invoice])) = Return 1 \/
   exists e, fst (main (platform:=scripted) portal_uploader_namespace [] "services.csv"
                    true (-1) (fresh [OkBool true; OkTable one_invoice])) = Raises e) /\
  exists evs,
    trace (snd (main (platform:=scripted) portal_uploader_namespace [] "services.csv"
                  true (-1) (fresh [OkBool true; OkTable one_invoice])))
    = [] ++ evs /\
    Forall (fun ev => is_startup_event ev = true) evs.
Proof.
  apply (negative_concurrency_rejected (platform:=scripted) portal_uploader_namespace []
           "services.csv" true (-1) (fresh [OkBool true; OkTable one_invoice])).
  lia.
Defined.

(** ** Progress of the row tasks *)

Section Progress.
Context {platform : Platform}.
Variable upload : row -> M World outcome.

Lemma gather_empty schedule semaphore (s : state World) :
  gather upload schedule semaphore [] s = (Results [], s).
Proof. unfold gather. simpl. rewrite run_tasks_step. reflexivity. Qed.

Lemma semaphore_acquire_ok c t p :
  admission_ok c p -> admission_ok c (semaphore_acquire t p).
Proof.
  intros (Hpos & Hsum & Hwait). unfold semaphore_acquire, admission_ok.
  destruct (waiters p) as [|w ws] eqn:Hw.
  - destruct (Z.ltb_spec 0 (sem_value p)); simpl.
    + rewrite length_app. simpl. repeat split; [lia | lia | congruence].
    + repeat split; [lia | lia | intros _; lia].
  - simpl. repeat split; [lia | lia | intros _; apply Hwait; discriminate].
Qed.

Lemma admitted_ok c tasks p :
  admission_ok c p ->
  admission_ok c (fold_left (fun p t => semaphore_acquire t p) tasks p).
Proof.
  revert p. induction tasks as [|t tasks IH]; intros p Hp; simpl; [exact Hp|].
  apply IH, semaphore_acquire_ok, Hp.
Qed.

Lemma completion_ok c p k x rest sl :
  admission_ok c p -> pick k (running p) = Some (x, rest) ->
  admission_ok c (semaphore_release
                    {| sem_value := sem_value p; waiters := waiters p; running := rest;
                       slots := sl |}).
Proof.
  intros (Hpos & Hsum & Hwait) Hpick. apply pick_length in Hpick.
  unfold semaphore_release, admission_ok. simpl.
  destruct (waiters p) as [|w ws] eqn:Hw; simpl.
  - repeat split; [lia | lia | congruence].
  - rewrite length_app. simpl.
    assert (sem_value p = 0) by (apply Hwait; discriminate).
    repeat split; [lia | lia | intros _; lia].
Qed.

(** With room for at least one task the tasks never get stuck: [gather]
    ends with the results or with the first exception. *)
Lemma run_tasks_progress c schedule p (s : state World) :
  1 <= c -> admission_ok c p -> fst (run_tasks upload schedule p s) <> Pending.
Proof.
  intros Hc. remember (length (pending p)) as n eqn:Hn.
  revert schedule p s Hn. induction n as [|n IH]; intros schedule p s Hn Hok;
    rewrite run_tasks_step;
    destruct (pick (hd 0%nat schedule) (running p)) as [[[i r] rest]|] eqn:Hpick.
  - apply pick_length in Hpick. unfold pending in Hn. rewrite length_app in Hn. lia.
  - apply pick_None in Hpick. destruct Hok as (Hpos & Hsum & Hwait).
    rewrite Hpick in Hsum. simpl in Hsum.
    destruct (waiters p); [discriminate|].
    assert (sem_value p = 0) by (apply Hwait; discriminate). lia.
  - destruct (upload r s) as [[e|o] s1]; [discriminate|].
    apply IH.
    + destruct (semaphore_release_pending
                  {| sem_value := sem_value p; waiters := waiters p; running := rest;
                     slots := <[i := Some o]> (slots p) |}) as [-> _].
      unfold pending in *. simpl. apply pick_length in Hpick.
      rewrite length_app in *. lia.
    + eapply completion_ok; eauto.
  - apply pick_None in Hpick. destruct Hok as (Hpos & Hsum & Hwait).
    rewrite Hpick in Hsum. simpl in Hsum.
    destruct (waiters p); [discriminate|].
    assert (sem_value p = 0) by (apply Hwait; discriminate). lia.
Qed.

Lemma gather_progress schedule semaphore rows (s : state World) :
  1 <= semaphore -> fst (gather upload schedule semaphore rows s) <> Pending.
Proof.
  intros Hc. unfold gather. apply (run_tasks_progress semaphore); [exact Hc|].
  apply admitted_ok. unfold admission_ok. simpl. repeat split; [lia | lia | congruence].
Qed.

Lemma closed_semaphore_admits_nobody tasks p :
  sem_value p = 0 ->
  running (fold_left (fun p t => semaphore_acquire t p) tasks p) = running p /\
  waiters (fold_left (fun p t => semaphore_acquire t p) tasks p) = waiters p ++ tasks.
Proof.
  revert p. induction tasks as [|t tasks IH]; intros p Hp; simpl.
  - rewrite app_nil_r. auto.
  - assert (Hstep : sem_value (semaphore_acquire t p) = 0 /\
                    running (semaphore_acquire t p) = running p /\
                    waiters (semaphore_acquire t p) = waiters p ++ [t]).
    { unfold semaphore_acquire. destruct (waiters p); [rewrite Hp|]; simpl; auto. }
    destruct Hstep as (H0 & Hr & Hw). destruct (IH _ H0) as [-> ->].
    rewrite Hr, Hw, <- app_assoc. auto.
Qed.

(** With a semaphore of 0 and at least one row no task ever runs. *)
Lemma gather_closed schedule rows (s : state World) :
  rows <> [] -> gather upload schedule 0 rows s = (Pending, s).
Proof.
  intros Hrows. unfold gather. rewrite run_tasks_step.
  destruct (closed_semaphore_admits_nobody (imap (fun i r => (i, r)) rows)
              {| sem_value := 0; waiters := []; running := [];
                 slots := replicate (length rows) None |} eq_refl) as [-> ->].
  simpl. destruct rows as [|r rows]; [congruence|]. reflexivity.
Qed.

End Progress.

(** ** Runs of the module as it is written *)



Section TaskEvents.
Context {platform : Platform}.
Variable upload : row -> M World outcome.
Variable f : event -> bool.
Hypothesis upload_silent : forall r, adds f (upload r) 0 0.


End TaskEvents.

Section SourceRuns.
Context {platform : Platform}.









End SourceRuns.

(** In the module as it is written the first row that completes ends the
    run: its [NameError] leaves [gather] and [main], after the release of the
    session, and no table is written. *)
Lemma run_aborts_on_first_row :
  fst (main (platform:=scripted) portal_uploader_namespace [] "services.csv" true 4
         (fresh [OkBool true; OkTable one_invoice]))
  = Raises (Exn NameError "name 'datetime' is not defined") /\
  written_tables
    (trace (snd (main (platform:=scripted) portal_uploader_namespace [] "services.csv"
                   true 4 (fresh [OkBool true; OkTable one_invoice]))))
  = [].
Proof. split; vm_compute; reflexivity. Qed.

(** A table of three invoices that the portal would accept, two tasks at a
    time: [main] raises [NameError] and writes no table. *)
Lemma accepted_rows_write_no_table :
  fst (main (platform:=scripted) portal_uploader_namespace [] "services.csv" true 2
         (fresh [OkBool true; OkTable three_invoices]))
  = Raises (Exn NameError "name 'datetime' is not defined") /\
  written_tables
    (trace (snd (main (platform:=scripted) portal_uploader_namespace [] "services.csv"
                   true 2 (fresh [OkBool true; OkTable three_invoices]))))
  = [].
Proof. split; vm_compute; reflexivity. Qed.

(** A row whose price cannot be read: [main] raises [NameError] instead of
    returning 2. *)
Lemma failed_row_ends_the_run_with_an_exception :
  fst (main (platform:=scripted) portal_uploader_namespace [] "services.csv" true 4
         (fresh [OkBool true;
                 OkTable {| df_columns := ["service_id"; "price"; "invoice_path"];
                            df_rows := [<["price" := CStr "n/a"]> (invoice "S1" 10 "a.pdf")] |}]))
  = Raises (Exn NameError "name 'datetime' is not defined").
Proof. vm_compute. reflexivity. Qed.

(* ===================================================================== *)
(** * Further properties *)
(* ===================================================================== *)

(** ** The retry loop: schedule of the delays, degenerate budget *)

Lemma total_delay_powers (a : Z) (m : nat) :
  0 <= a ->
  total_delay ((fun k => 2 ^ k * 1000) <$> seqZ a (Z.of_nat m))
  = (2 ^ (a + Z.of_nat m) - 2 ^ a) * 1000.
Proof.
  revert a. induction m as [|m IH]; intros a Ha.
  - simpl. rewrite Z.add_0_r. lia.
  - rewrite seqZ_cons by lia. rewrite fmap_cons. unfold total_delay in *. simpl foldr.
    replace (Z.pred (Z.of_nat (S m))) with (Z.of_nat m) by lia.
    rewrite (IH (Z.succ a)) by lia.
    replace (Z.succ a + Z.of_nat m) with (a + Z.of_nat (S m)) by lia.
    rewrite Z.pow_succ_r by lia. lia.
Qed.

(** The delays of a run are fixed by the number of its attempts: after the
    [k]-th failed attempt the loop sleeps [2 ^ k * 1000] ms, so [n] attempts
    cost [(2 ^ n - 2) * 1000] ms of back-off in all, which is at most
    [(2 ^ (max_retries + 1) - 2) * 1000] ms (14 s for the default 3). *)
Theorem back_off_schedule {W0 A} (f : W0 -> (exn + A) * W0) (max_retries : Z)
    (s : state (list (exn + A) * W0)) :
  0 <= max_retries ->
  delays_of s (snd (_retry_with_backoff (recorded f) max_retries s))
  = (fun k => 2 ^ k * 1000)
      <$> seqZ 1 (Z.of_nat
                    (length (attempts_of s
                               (snd (_retry_with_backoff (recorded f) max_retries s))))
                  - 1) /\
  total_delay (delays_of s (snd (_retry_with_backoff (recorded f) max_retries s)))
  = (2 ^ Z.of_nat (length (attempts_of s
                              (snd (_retry_with_backoff (recorded f) max_retries s))))
     - 2) * 1000 /\
  total_delay (delays_of s (snd (_retry_with_backoff (recorded f) max_retries s)))
  <= (2 ^ (max_retries + 1) - 2) * 1000.
Proof.
  intros Hmax.
  destruct (retry_with_backoff_run f max_retries s Hmax)
    as (earlier & c & -> & _ & -> & Hlen & _).
  rewrite length_app. simpl length.
  replace (Z.of_nat (length earlier + 1) - 1) with (Z.of_nat (length earlier)) by lia.
  rewrite total_delay_powers by lia.
  replace (1 + Z.of_nat (length earlier)) with (Z.of_nat (length earlier + 1)) by lia.
  assert (2 ^ Z.of_nat (length earlier + 1) <= 2 ^ (max_retries + 1))
    by (apply Z.pow_le_mono_r; lia).
  change (2 ^ 1) with 2.
  split; [reflexivity|]. split; [reflexivity|]. lia.
Qed.

Lemma back_off_schedule_witness :
  delays_of (fresh ([], 0%nat))
    (snd (_retry_with_backoff (recorded limited_once) 3 (fresh ([], 0%nat))))
  = (fun k => 2 ^ k * 1000)
      <$> seqZ 1 (Z.of_nat
                    (length (attempts_of (fresh ([], 0%nat))
                               (snd (_retry_with_backoff (recorded limited_once) 3
                                       (fresh ([], 0%nat))))))
                  - 1) /\
  total_delay (delays_of (fresh ([], 0%nat))
                 (snd (_retry_with_backoff (recorded limited_once) 3 (fresh ([], 0%nat)))))
  = (2 ^ Z.of_nat (length (attempts_of (fresh ([], 0%nat))
                              (snd (_retry_with_backoff (recorded limited_once) 3
                                      (fresh ([], 0%nat))))))
     - 2) * 1000 /\
  total_delay (delays_of (fresh ([], 0%nat))
                 (snd (_retry_with_backoff (recorded limited_once) 3 (fresh ([], 0%nat)))))
  <= (2 ^ (3 + 1) - 2) * 1000.
Proof.
  apply (back_off_schedule limited_once 3 (fresh ([], 0%nat))). lia.
Defined.

(** With a negative [max_retries] the loop body never runs: the operation is
    not invoked, nothing is logged or slept, and line 144 raises [None],
    which Python turns into a [TypeError]. *)
Theorem negative_max_retries_raises {W0 A} (f : W0 -> (exn + A) * W0) (max_retries : Z)
    (s : state (list (exn + A) * W0)) :
  max_retries < 0 ->
  exc_type_of (fst (_retry_with_backoff (recorded f) max_retries s)) = Some TypeError /\
  snd (_retry_with_backoff (recorded f) max_retries s) = s /\
  attempts_of s (snd (_retry_with_backoff (recorded f) max_retries s)) = [].
Proof.
  intros Hneg. unfold _retry_with_backoff. rewrite retry_loop_step.
  destruct (Z.leb_spec 0 max_retries); [lia|]. simpl.
  repeat split. unfold attempts_of. apply drop_all.
Qed.

Lemma negative_max_retries_raises_witness :
  exc_type_of (fst (_retry_with_backoff (recorded always_times_out) (-1) (fresh ([], tt))))
  = Some TypeError /\
  snd (_retry_with_backoff (recorded always_times_out) (-1) (fresh ([], tt)))
  = fresh ([], tt) /\
  attempts_of (fresh ([], tt))
    (snd (_retry_with_backoff (recorded always_times_out) (-1) (fresh ([], tt)))) = [].
Proof.
  apply (negative_max_retries_raises always_times_out (-1) (fresh ([], tt))). lia.
Defined.

(** ** The Row Submitter: page lifetime, duplicates *)

Section FinallyTrace.
Context {W : Type}.

Lemma try_finally_trace {A} (body : M W A) (fin : M W unit) s ev :
  (forall s1, trace (snd (fin s1)) = trace s1 ++ [ev]) ->
  trace (snd (try_finally body fin s)) = trace (snd (body s)) ++ [ev].
Proof.
  intros Hfin. unfold try_finally. destruct (body s) as [r s1]. simpl.
  rewrite <- (Hfin s1). destruct (fin s1) as [[e|[]] s2]; reflexivity.
Qed.
End FinallyTrace.

Section RowSubmitter.
Context {platform : Platform}.
Variable ns : namespace.

Lemma perform_trace o (s : state World) :
  trace (snd (perform o s)) = trace s ++ [EvOp o].
Proof. unfold perform. destruct (driver o (world s)). reflexivity. Qed.

Lemma bind_perform {B} o (k : ans o -> M World B) (s : state World) a w :
  driver o (world s) = (inr a, w) ->
  bind (perform o) k s = k a {| world := w; trace := trace s ++ [EvOp o] |}.
Proof. intros Ho. unfold bind, perform. rewrite Ho. reflexivity. Qed.

Lemma do_upload_keeps_page_open pg r : adds is_page_close (do_upload ns pg r) 0 0.
Proof. unfold do_upload, logger. cbv zeta. silent. Qed.

(** [upload_row] closes the page it opened, on every path: whatever the
    workflow returned or raised, closing that page is the last thing it
    does, and it closes no page before. *)
Theorem upload_row_closes_its_page (r : row) (s : state World) (pg : page) (w : World) :
  driver context_new_page (world s) = (inr pg, w) ->
  last (trace (snd (upload_row ns r s))) = Some (EvOp (page_close pg)) /\
  occurrences is_page_close (trace (snd (upload_row ns r s)))
  = S (occurrences is_page_close (trace s)).
Proof.
  intros Hpage. unfold upload_row.
  rewrite (bind_perform context_new_page _ s pg w Hpage).
  rewrite (try_finally_trace _ _ _ (EvOp (page_close pg)))
    by (intros s1; exact (perform_trace (page_close pg) s1)).
  rewrite last_snoc, occurrences_app, occurrences_one. simpl.
  split; [reflexivity|].
  match goal with
  | |- context [snd (?body ?s0)] =>
      assert (Hbody : adds is_page_close body 0 0); [|destruct (Hbody s0) as [H1 H2]]
  end.
  { apply adds_try_except.
    - apply adds_bind_silent.
      + apply adds_retry_silent; try reflexivity. apply do_upload_keeps_page_open.
      + intros result. unfold logger. silent.
    - intros e. unfold logger. silent. }
  simpl in *. rewrite occurrences_app, occurrences_one in *. simpl in *. lia.
Qed.

End RowSubmitter.

Lemma upload_row_closes_its_page_witness :
  last (trace (snd (upload_row (platform:=scripted) portal_uploader_namespace
                      (invoice "S1" 10 "a.pdf")
                      (fresh [OkPage 5%nat; Fails (TimeoutError_ "Timeout 30000ms exceeded.")]))))
  = Some (EvOp (page_close 5%nat)) /\
  occurrences is_page_close
    (trace (snd (upload_row (platform:=scripted) portal_uploader_namespace
                   (invoice "S1" 10 "a.pdf")
                   (fresh [OkPage 5%nat; Fails (TimeoutError_ "Timeout 30000ms exceeded.")]))))
  = S (occurrences is_page_close
         (trace (fresh [OkPage 5%nat; Fails (TimeoutError_ "Timeout 30000ms exceeded.")]))).
Proof.
  apply (upload_row_closes_its_page (platform:=scripted) portal_uploader_namespace
           (invoice "S1" 10 "a.pdf")
           (fresh [OkPage 5%nat; Fails (TimeoutError_ "Timeout 30000ms exceeded.")])
           5%nat [Fails (TimeoutError_ "Timeout 30000ms exceeded.")]).
  reflexivity.
Defined.

Section RowOutcomes.
Context {platform : Platform}.
Variable ns : namespace.

(** On a portal whose duplicate check always finds the service, [do_upload]
    leaves the form alone. *)
Lemma do_upload_duplicate_leaves_form pg r :
  (forall p sel w n w', driver (locator_count p sel) w = (inr n, w') -> 0 < n) ->
  adds is_form_event (do_upload ns pg r) 0 0.
Proof.
  intros Hdup. unfold do_upload.
  apply adds_bind_silent; [silent|]. intros _.
  apply adds_bind_silent; [silent|]. intros sid. cbv zeta.
  eapply (adds_bind_returns _ _ _ (fun n => 0 < n)); [silent | |].
  - intros s0 n s1. unfold perform.
    destruct (driver _ (world s0)) as [[e|n'] w'] eqn:E; [discriminate|].
    intros [= <- _]. eapply Hdup. exact E.
  - intros n Hn. destruct (Z.ltb_spec 0 n); [|lia]. unfold logger. silent.
Qed.

(** A row whose service is already on the portal is never submitted: as
    long as every duplicate check that answers finds a match, [upload_row]
    fills no field, attaches no file and clicks nothing, on any attempt. *)
Theorem duplicate_row_is_not_submitted (r : row) (s : state World) :
  (forall p sel w n w', driver (locator_count p sel) w = (inr n, w') -> 0 < n) ->
  occurrences is_form_event (trace (snd (upload_row ns r s)))
  = occurrences is_form_event (trace s).
Proof.
  intros Hdup. apply adds_unchanged. unfold upload_row.
  apply adds_bind_silent; [silent|]. intros pg.
  apply adds_try_finally; [|silent].
  apply adds_try_except.
  - apply adds_bind_silent.
    + apply adds_retry_silent; try reflexivity.
      apply do_upload_duplicate_leaves_form, Hdup.
    + intros result. unfold logger. silent.
  - intros e. unfold logger. silent.
Qed.

End RowOutcomes.

Lemma duplicate_row_is_not_submitted_witness :
  occurrences is_form_event
    (trace (snd (upload_row (platform:=constant_portal 1) portal_uploader_namespace
                   (invoice "S1" 10 "a.pdf") (fresh tt))))
  = occurrences is_form_event (trace (fresh tt)).
Proof.
  apply (duplicate_row_is_not_submitted (platform:=constant_portal 1)
           portal_uploader_namespace (invoice "S1" 10 "a.pdf") (fresh tt)).
  intros p sel w n w' [= <- _]. lia.
Defined.

(** ** The Session Manager: login *)

Section Login.
Context {platform : Platform}.

Lemma bind_perform_at {B} o (k : ans o -> M World B) w0 t a w :
  driver o w0 = (inr a, w) ->
  bind (perform o) k {| world := w0; trace := t |}
  = k a {| world := w; trace := t ++ [EvOp o] |}.
Proof. intros Ho. unfold bind, perform. cbn [world trace]. rewrite Ho. reflexivity. Qed.

(** Without both credentials [_login] raises [ValueError] right after
    reading the environment: no page is opened and the portal is not
    contacted.  An empty value counts as missing. *)
Theorem login_without_credentials_raises (s : state World) (u p : option string)
    (w1 w2 : World) :
  driver (os_getenv "PORTAL_USERNAME") (world s) = (inr u, w1) ->
  driver (os_getenv "PORTAL_PASSWORD") w1 = (inr p, w2) ->
  u = None \/ u = Some "" \/ p = None \/ p = Some "" ->
  exc_type_of (fst (_login s)) = Some ValueError /\
  trace (snd (_login s))
  = trace s ++ [EvOp (os_getenv "PORTAL_USERNAME"); EvOp (os_getenv "PORTAL_PASSWORD")].
Proof.
  intros Hu Hp Hmissing. unfold _login.
  rewrite (bind_perform (os_getenv "PORTAL_USERNAME") _ s u w1 Hu).
  rewrite (bind_perform_at (os_getenv "PORTAL_PASSWORD") _ _ _ p w2 Hp).
  destruct u as [[|a u]|], p as [[|b p]|]; cbn; rewrite <- ?app_assoc;
    try (split; reflexivity).
  exfalso. destruct Hmissing as [?|[?|[?|?]]]; discriminate.
Qed.

(** A login that opened its page closes it, on every path: closing the page
    is the last thing [_login] does, whether the form, the wait for the
    dashboard or the saving of the state succeeded or raised. *)
Theorem login_closes_its_page (s : state World) (u p : string) (w1 w2 w3 : World)
    (pg : page) :
  u <> "" -> p <> "" ->
  driver (os_getenv "PORTAL_USERNAME") (world s) = (inr (Some u), w1) ->
  driver (os_getenv "PORTAL_PASSWORD") w1 = (inr (Some p), w2) ->
  driver context_new_page w2 = (inr pg, w3) ->
  last (trace (snd (_login s))) = Some (EvOp (page_close pg)).
Proof.
  intros Hune Hpne Hu Hp Hpage. unfold _login.
  rewrite (bind_perform (os_getenv "PORTAL_USERNAME") _ s _ w1 Hu).
  rewrite (bind_perform_at (os_getenv "PORTAL_PASSWORD") _ _ _ _ w2 Hp).
  destruct u as [|a u]; [congruence|]. destruct p as [|b p]; [congruence|].
  rewrite (bind_perform_at context_new_page _ _ _ pg w3 Hpage).
  rewrite (try_finally_trace _ _ _ (EvOp (page_close pg)))
    by (intros s1; exact (perform_trace (page_close pg) s1)).
  apply last_snoc.
Qed.

(** A login that returns has gone through the whole protocol, in this
    order: credentials read, page opened, login page loaded, both fields
    filled, sign-in clicked, dashboard seen within 8 s, authentication state
    saved to [auth.json], page closed.  The state is saved only after the
    dashboard was seen. *)
Theorem login_success_protocol (s : state World) :
  fst (_login s) = inr tt ->
  exists u p pg,
    u <> "" /\ p <> "" /\
    trace (snd (_login s))
    = trace s ++
      [EvOp (os_getenv "PORTAL_USERNAME"); EvOp (os_getenv "PORTAL_PASSWORD");
       EvOp context_new_page;
       EvOp (page_goto pg TODO_SELECTOR_LOGIN_URL);
       EvOp (page_fill pg TODO_SELECTOR_USERNAME u);
       EvOp (page_fill pg TODO_SELECTOR_PASSWORD p);
       EvOp (page_click pg TODO_SELECTOR_SIGNIN_BUTTON);
       EvOp (page_wait_for_selector pg TODO_SELECTOR_DASHBOARD 8000);
       EvLog INFO "[AUTH] Login successful";
       EvOp (context_storage_state AUTH_FILE);
       EvLog INFO "[AUTH] Saved authentication state";
       EvOp (page_close pg)].
Proof.
  intros Hret. destruct (_login s) as [res s'] eqn:E. simpl in Hret. subst res.
  cbn [snd]. unfold _login, bind, perform in E.
  destruct (driver (os_getenv "PORTAL_USERNAME") (world s)) as [[e|u] w1];
    [discriminate|].
  cbn [world trace] in E.
  destruct (driver (os_getenv "PORTAL_PASSWORD") w1) as [[e|p] w2]; [discriminate|].
  destruct u as [[|a u]|]; try discriminate;
    destruct p as [[|b p]|]; try discriminate.
  unfold try_finally, bind, perform, logger, emit in E. cbn [world trace] in E.
  destruct (driver context_new_page w2) as [[e|pg] w3]; [discriminate|].
  cbn [world trace] in E.
  repeat match type of E with
         | context [driver ?o ?w] =>
             destruct (driver o w) as [[?|?] ?]; cbn [world trace fst snd] in E;
             try discriminate
         end.
  injection E as <-. exists (String a u), (String b p), pg. cbn [trace].
  rewrite <- !app_assoc. repeat split; discriminate.
Qed.

(** With a saved session [__aenter__] runs no login: it reads no
    credentials and opens and drives no page. *)
Theorem saved_session_skips_login (self : uploader) (s : state World) :
  (forall w b w', driver (path_exists AUTH_FILE) w = (inr b, w') -> b = true) ->
  occurrences is_login_event (trace (snd (__aenter__ self s)))
  = occurrences is_login_event (trace s).
Proof.
  intros Hsaved. apply adds_unchanged. unfold __aenter__.
  apply adds_bind_silent; [silent|]. intros _.
  apply adds_bind_silent; [silent|]. intros _.
  eapply (adds_bind_returns _ _ _ (fun b => b = true)); [silent | |].
  - intros s0 b s1. unfold perform.
    destruct (driver _ (world s0)) as [[e|b'] w'] eqn:E; [discriminate|].
    intros [= <- _]. eapply Hsaved. exact E.
  - intros b ->. unfold logger. silent.
Qed.
End Login.

Lemma login_without_credentials_raises_witness :
  exc_type_of (fst (_login (platform:=scripted)
                      (fresh [OkEnv (Some "clerk"); OkEnv None]))) = Some ValueError /\
  trace (snd (_login (platform:=scripted) (fresh [OkEnv (Some "clerk"); OkEnv None])))
  = trace (fresh [OkEnv (Some "clerk"); OkEnv None])
    ++ [EvOp (os_getenv "PORTAL_USERNAME"); EvOp (os_getenv "PORTAL_PASSWORD")].
Proof.
  apply (login_without_credentials_raises (platform:=scripted)
           (fresh [OkEnv (Some "clerk"); OkEnv None]) (Some "clerk") None
           [OkEnv None] []).
  - reflexivity.
  - reflexivity.
  - auto.
Defined.

Lemma login_closes_its_page_witness :
  last (trace (snd (_login (platform:=scripted)
                      (fresh [OkEnv (Some "clerk"); OkEnv (Some "s3cret"); OkPage 9%nat;
                              Ok; Ok; Ok; Ok;
                              Fails (TimeoutError_ "Timeout 8000ms exceeded.")]))))
  = Some (EvOp (page_close 9%nat)).
Proof.
  apply (login_closes_its_page (platform:=scripted)
           (fresh [OkEnv (Some "clerk"); OkEnv (Some "s3cret"); OkPage 9%nat;
                   Ok; Ok; Ok; Ok; Fails (TimeoutError_ "Timeout 8000ms exceeded.")])
           "clerk" "s3cret"
           [OkEnv (Some "s3cret"); OkPage 9%nat; Ok; Ok; Ok; Ok;
            Fails (TimeoutError_ "Timeout 8000ms exceeded.")]
           [OkPage 9%nat; Ok; Ok; Ok; Ok; Fails (TimeoutError_ "Timeout 8000ms exceeded.")]
           [Ok; Ok; Ok; Ok; Fails (TimeoutError_ "Timeout 8000ms exceeded.")]
           9%nat).
  - discriminate.
  - discriminate.
  - reflexivity.
  - reflexivity.
  - reflexivity.
Defined.

Lemma login_success_protocol_witness :
  exists u p pg,
    u <> "" /\ p <> "" /\
    trace (snd (_login (platform:=scripted)
                  (fresh [OkEnv (Some "clerk"); OkEnv (Some "s3cret"); OkPage 9%nat])))
    = trace (fresh [OkEnv (Some "clerk"); OkEnv (Some "s3cret"); OkPage 9%nat]) ++
      [EvOp (os_getenv "PORTAL_USERNAME"); EvOp (os_getenv "PORTAL_PASSWORD");
       EvOp context_new_page;
       EvOp (page_goto pg TODO_SELECTOR_LOGIN_URL);
       EvOp (page_fill pg TODO_SELECTOR_USERNAME u);
       EvOp (page_fill pg TODO_SELECTOR_PASSWORD p);
       EvOp (page_click pg TODO_SELECTOR_SIGNIN_BUTTON);
       EvOp (page_wait_for_selector pg TODO_SELECTOR_DASHBOARD 8000);
       EvLog INFO "[AUTH] Login successful";
       EvOp (context_storage_state AUTH_FILE);
       EvLog INFO "[AUTH] Saved authentication state";
       EvOp (page_close pg)].
Proof.
  apply (login_success_protocol (platform:=scripted)
           (fresh [OkEnv (Some "clerk"); OkEnv (Some "s3cret"); OkPage 9%nat])).
  vm_compute. reflexivity.
Defined.

Lemma saved_session_skips_login_witness :
  occurrences is_login_event
    (trace (snd (__aenter__ (platform:=constant_portal 0) (PortalUploader true) (fresh tt))))
  = occurrences is_login_event (trace (fresh tt)).
Proof.
  apply (saved_session_skips_login (platform:=constant_portal 0) (PortalUploader true)
           (fresh tt)).
  intros w b w' [= <- _]. reflexivity.
Defined.

(** ** The Upload Orchestrator: startup, exit codes, the semaphore *)

Section StartupFacts.
Context {platform : Platform}.

(** The exit codes of [main] are 0, 1 and 2, and 1 is a startup failure: a
    run that returns 1 has touched nothing but the input file: no
    browser was launched, no row submitted, no table written. *)
Theorem exit_code_one_is_a_startup_failure (ns : namespace) schedule csv_path headless
    concurrency (s : state World) code :
  fst (main ns schedule csv_path headless concurrency s) = Return code ->
  (code = 0 \/ code = 1 \/ code = 2) /\
  (code = 1 ->
   exists evs,
     trace (snd (main ns schedule csv_path headless concurrency s)) = trace s ++ evs /\
     Forall (fun ev => is_startup_event ev = true) evs).
Proof.
  intros Hret.
  destruct (startup_shape csv_path concurrency s) as (Htrace & Hearly & _).
  destruct (fst (startup csv_path concurrency s)) as [e|[c|[df sem]]] eqn:Hstart.
  - unfold main in Hret. destruct (startup csv_path concurrency s) as [r s1].
    simpl in Hstart. subst r. discriminate.
  - unfold main in *. destruct (startup csv_path concurrency s) as [r s1].
    simpl in Hstart. subst r. simpl in *. injection Hret as <-.
    rewrite (Hearly c eq_refl). split; [auto | intros _; exact Htrace].
  - destruct (main_returns ns _ _ _ _ _ _ _ _ Hstart Hret)
      as (s2 & results & s3 & s4 & Hgather & Hreport).
    apply gather_results in Hgather.
    apply report_returns in Hreport as (path & table & _ & _ & ->);
      [|symmetry; eapply Forall2_length; exact Hgather].
    destruct (0 <? n_ERROR _); split; auto; discriminate.
Qed.

(** A file that does not exist, or that pandas cannot read, ends the run
    with exit code 1. *)
Theorem missing_input_exits_with_1 (ns : namespace) schedule csv_path headless
    concurrency (s : state World) (w1 : World) :
  driver (path_exists csv_path) (world s) = (inr false, w1) \/
  (driver (path_exists csv_path) (world s) = (inr true, w1) /\
   exists e w2, driver (read_csv csv_path) w1 = (inl e, w2)) ->
  fst (main ns schedule csv_path headless concurrency s) = Return 1.
Proof.
  unfold main, startup, bind, try_except, perform, logger, emit, ret. simpl.
  intros [H | [H (e & w2 & H2)]]; rewrite H; simpl; [reflexivity|].
  rewrite H2. reflexivity.
Qed.

(** A table that lacks one of [service_id], [price], [invoice_path] ends the
    run with exit code 1, whatever else it holds. *)
Theorem missing_column_exits_with_1 (ns : namespace) schedule csv_path headless
    concurrency (s : state World) (w1 w2 : World) (df : DataFrame) (col : string) :
  driver (path_exists csv_path) (world s) = (inr true, w1) ->
  driver (read_csv csv_path) w1 = (inr df, w2) ->
  col ∈ REQUIRED_COLUMNS -> col ∉ df_columns df ->
  fst (main ns schedule csv_path headless concurrency s) = Return 1.
Proof.
  intros Hexists Hread Hreq Hmiss.
  unfold main, startup, bind, try_except, perform, logger, emit, ret. simpl.
  rewrite Hexists. simpl. rewrite Hread. simpl.
  destruct (filter (fun c => c ∉ df_columns df) REQUIRED_COLUMNS) as [|c cs] eqn:Hf.
  - exfalso. assert (Hin : col ∈ filter (fun c => c ∉ df_columns df) REQUIRED_COLUMNS)
      by (apply list_elem_of_filter; auto).
    rewrite Hf in Hin. inversion Hin.
  - reflexivity.
Qed.
End StartupFacts.

Lemma exit_code_one_is_a_startup_failure_witness :
  (1 = 0 \/ 1 = 1 \/ 1 = 2) /\
  (1 = 1 ->
   exists evs,
     trace (snd (main (platform:=scripted) portal_uploader_namespace [] "services.csv"
                   true 4 (fresh [OkBool false])))
     = trace (fresh [OkBool false]) ++ evs /\
     Forall (fun ev => is_startup_event ev = true) evs).
Proof.
  apply (exit_code_one_is_a_startup_failure (platform:=scripted)
           portal_uploader_namespace [] "services.csv" true 4 (fresh [OkBool false]) 1).
  vm_compute. reflexivity.
Defined.

Lemma missing_input_exits_with_1_witness :
  fst (main (platform:=scripted) portal_uploader_namespace [] "services.csv" true 4
         (fresh [OkBool true; Fails (Exn (OtherException "ParserError") "Error tokenizing data")]))
  = Return 1.
Proof.
  apply (missing_input_exits_with_1 (platform:=scripted) portal_uploader_namespace []
           "services.csv" true 4
           (fresh [OkBool true;
                   Fails (Exn (OtherException "ParserError") "Error tokenizing data")])
           [Fails (Exn (OtherException "ParserError") "Error tokenizing data")]).
  right. split; [reflexivity|]. eexists _, _. reflexivity.
Defined.

Lemma missing_column_exits_with_1_witness :
  fst (main (platform:=scripted) portal_uploader_namespace [] "services.csv" true 4
         (fresh [OkBool true;
                 OkTable {| df_columns := ["service_id"; "invoice_path"; "description"];
                            df_rows := [] |}]))
  = Return 1.
Proof.
  apply (missing_column_exits_with_1 (platform:=scripted) portal_uploader_namespace []
           "services.csv" true 4
           (fresh [OkBool true;
                   OkTable {| df_columns := ["service_id"; "invoice_path"; "description"];
                              df_rows := [] |}])
           [OkTable {| df_columns := ["service_id"; "invoice_path"; "description"];
                       df_rows := [] |}]
           []
           {| df_columns := ["service_id"; "invoice_path"; "description"]; df_rows := [] |}
           "price").
  - reflexivity.
  - reflexivity.
  - apply (bool_decide_unpack _). vm_compute. exact I.
  - apply (bool_decide_unpack _). vm_compute. exact I.
Defined.

Section Admission.
Context {platform : Platform}.
Variable upload : row -> M World outcome.

(** The tasks pass the semaphore in the order of the rows: of [n] tasks the
    first [concurrency] are past it when [gather] starts waiting, the others
    queue behind them in input order. *)
Theorem admission_in_input_order (c : Z) (tasks : list (nat * row))
    (slots0 : list (option outcome)) :
  0 <= c ->
  running (fold_left (fun p t => semaphore_acquire t p) tasks
             {| sem_value := c; waiters := []; running := []; slots := slots0 |})
  = take (Z.to_nat c) tasks /\
  waiters (fold_left (fun p t => semaphore_acquire t p) tasks
             {| sem_value := c; waiters := []; running := []; slots := slots0 |})
  = drop (Z.to_nat c) tasks.
Proof.
  intros Hc.
  cut (running (fold_left (fun p t => semaphore_acquire t p) tasks
                  {| sem_value := c; waiters := []; running := []; slots := slots0 |})
       = take (Z.to_nat c) tasks /\
       waiters (fold_left (fun p t => semaphore_acquire t p) tasks
                  {| sem_value := c; waiters := []; running := []; slots := slots0 |})
       = drop (Z.to_nat c) tasks /\
       sem_value (fold_left (fun p t => semaphore_acquire t p) tasks
                    {| sem_value := c; waiters := []; running := []; slots := slots0 |})
       = c - Z.of_nat (length (take (Z.to_nat c) tasks))).
  { intros (? & ? & _). auto. }
  induction tasks as [|t tasks IH] using rev_ind.
  - simpl. rewrite take_nil, drop_nil. simpl. repeat split; lia.
  - rewrite fold_left_app. simpl.
    remember (fold_left (fun p t => semaphore_acquire t p) tasks
                {| sem_value := c; waiters := []; running := []; slots := slots0 |}) as P.
    destruct IH as (Hr & Hw & Hv). unfold semaphore_acquire. rewrite Hw, Hv, Hr.
    rewrite length_take in *.
    destruct (decide (length tasks < Z.to_nat c)%nat) as [Hlt|Hge].
    + rewrite drop_ge by lia.
      match goal with |- context [0 <? ?x] => destruct (Z.ltb_spec 0 x) end; [|lia].
      simpl. rewrite take_app_ge, drop_ge, take_ge by (rewrite ?length_app; simpl; lia).
      rewrite length_app. rewrite (take_ge [t]) by (simpl; lia).
      simpl. repeat split; lia.
    + destruct (drop (Z.to_nat c) tasks) as [|w ws] eqn:Hd.
      * assert (length tasks = Z.to_nat c).
        { apply (f_equal length) in Hd. rewrite length_drop in Hd. simpl in Hd. lia. }
        match goal with |- context [0 <? ?x] => destruct (Z.ltb_spec 0 x) end; [lia|].
        simpl. rewrite take_app_le, drop_app_le by lia. rewrite Hd. simpl.
        rewrite length_take. repeat split; lia.
      * simpl. rewrite take_app_le, drop_app_le by lia. rewrite Hd. simpl.
        rewrite length_take. repeat split; lia.
Qed.
End Admission.

Lemma admission_in_input_order_witness :
  running (fold_left (fun p t => semaphore_acquire t p)
             [(0%nat, invoice "S1" 10 "a.pdf"); (1%nat, invoice "S2" 20 "b.pdf");
              (2%nat, invoice "S3" 30 "c.pdf")]
             {| sem_value := 2; waiters := []; running := []; slots := [None; None; None] |})
  = take (Z.to_nat 2)
      [(0%nat, invoice "S1" 10 "a.pdf"); (1%nat, invoice "S2" 20 "b.pdf");
       (2%nat, invoice "S3" 30 "c.pdf")] /\
  waiters (fold_left (fun p t => semaphore_acquire t p)
             [(0%nat, invoice "S1" 10 "a.pdf"); (1%nat, invoice "S2" 20 "b.pdf");
              (2%nat, invoice "S3" 30 "c.pdf")]
             {| sem_value := 2; waiters := []; running := []; slots := [None; None; None] |})
  = drop (Z.to_nat 2)
      [(0%nat, invoice "S1" 10 "a.pdf"); (1%nat, invoice "S2" 20 "b.pdf");
       (2%nat, invoice "S3" 30 "c.pdf")].
Proof.
  apply (admission_in_input_order 2
           [(0%nat, invoice "S1" 10 "a.pdf"); (1%nat, invoice "S2" 20 "b.pdf");
            (2%nat, invoice "S3" 30 "c.pdf")] [None; None; None]).
  lia.
Defined.

Section RunFacts.
Context {platform : Platform}.
Variable ns : namespace.

(** With a concurrency of at least 1 [main] never waits for ever on its
    tasks: it returns an exit code or raises. *)
Theorem positive_concurrency_never_hangs schedule csv_path headless concurrency
    (s : state World) :
  1 <= concurrency ->
  fst (main ns schedule csv_path headless concurrency s) <> Never.
Proof.
  intros Hc. unfold main.
  destruct (startup_shape csv_path concurrency s) as (_ & _ & Hsem).
  destruct (startup csv_path concurrency s) as [[e|[c|[df sem]]] s1];
    try discriminate.
  destruct (Hsem df sem eq_refl) as [-> _].
  destruct (__aenter__ (PortalUploader headless) s1) as [[e|u] s2]; [discriminate|].
  pose proof (gather_progress (process_row ns) schedule concurrency (df_rows df) s2 Hc)
    as Hprogress.
  destruct (gather (process_row ns) schedule concurrency (df_rows df) s2)
    as [[results|e|] s3]; simpl in *.
  - destruct ((__aexit__ u >> report df results) s3) as [[e|c] s4]; discriminate.
  - destruct (__aexit__ u s3) as [[e'|[]] s4]; discriminate.
  - congruence.
Qed.

(** With a concurrency of 0 and at least one row [main] acquires the
    session and then waits for ever: no row is processed, the session is
    not released, no table is written. *)
Theorem zero_concurrency_hangs schedule csv_path headless (s s1 s2 : state World)
    df semaphore u :
  startup csv_path 0 s = (inr (inr (df, semaphore)), s1) ->
  df_rows df <> [] ->
  __aenter__ (PortalUploader headless) s1 = (inr u, s2) ->
  main ns schedule csv_path headless 0 s = (Never, s2).
Proof.
  intros Hstart Hrows Henter. unfold main.
  destruct (startup_shape csv_path 0 s) as (_ & _ & Hsem).
  rewrite Hstart in *. destruct (Hsem df semaphore eq_refl) as [-> _].
  rewrite Henter, gather_closed by exact Hrows. reflexivity.
Qed.

(** An input table without rows is not an error: once the session is
    acquired nothing is submitted, and a run that returns returns 0, for
    every concurrency that [startup] lets through, 0 included. *)
Theorem empty_table_exits_with_0 schedule csv_path headless concurrency
    (s : state World) df semaphore :
  fst (startup csv_path concurrency s) = inr (inr (df, semaphore)) ->
  df_rows df = [] ->
  fst (main ns schedule csv_path headless concurrency s) <> Never /\
  (forall code,
     fst (main ns schedule csv_path headless concurrency s) = Return code -> code = 0).
Proof.
  intros Hstart Hrows. unfold main.
  destruct (startup csv_path concurrency s) as [r s1]. simpl in Hstart. subst r.
  destruct (__aenter__ (PortalUploader headless) s1) as [[e|u] s2];
    [split; [discriminate | intros ? [=]]|].
  rewrite Hrows, gather_empty.
  unfold bind. destruct (__aexit__ u s2) as [[e|[]] s3];
    [split; [discriminate | intros ? [=]]|].
  unfold report, bind, lift, assign, set_column, perform, logger, emit, ret.
  rewrite Hrows. simpl.
  destruct (driver _ (world s3)) as [[e|[]] w]; simpl;
    split; try discriminate; intros ? [=]; auto.
Qed.
End RunFacts.

Section SourceRun.
Context {platform : Platform}.

(** In the module as it is written a run that reaches row processing with
    at least one row never hands back an exit code: no run reports 0 or 2
    for a non-empty table, it raises (or waits for ever). *)
Theorem run_with_rows_never_completes schedule csv_path headless concurrency
    (s : state World) df semaphore :
  fst (startup csv_path concurrency s) = inr (inr (df, semaphore)) ->
  df_rows df <> [] ->
  forall code,
    fst (main portal_uploader_namespace schedule csv_path headless concurrency s)
    <> Return code.
Proof.
  intros Hstart Hrows code Hret.
  destruct (main_returns _ _ _ _ _ _ _ _ _ Hstart Hret)
    as (s2 & results & s3 & s4 & Hgather & _).
  apply gather_results in Hgather.
  destruct Hgather as [|r o rows results (s0 & s1' & Hprod) _]; [congruence|].
  apply upload_row_returns in Hprod as [Hns _]. discriminate.
Qed.
End SourceRun.

Lemma positive_concurrency_never_hangs_witness :
  fst (main (platform:=scripted) portal_uploader_namespace [1%nat; 0%nat; 0%nat]
         "services.csv" true 2 (fresh [OkBool true; OkTable three_invoices])) <> Never.
Proof.
  apply (positive_concurrency_never_hangs (platform:=scripted) portal_uploader_namespace
           [1%nat; 0%nat; 0%nat] "services.csv" true 2
           (fresh [OkBool true; OkTable three_invoices])).
  lia.
Defined.

Lemma zero_concurrency_hangs_witness :
  main (platform:=scripted) portal_uploader_namespace [] "services.csv" true 0
    (fresh [OkBool true; OkTable three_invoices])
  = (Never,
     snd (__aenter__ (platform:=scripted) (PortalUploader true)
            (snd (startup (platform:=scripted) "services.csv" 0
                    (fresh [OkBool true; OkTable three_invoices]))))).
Proof.
  apply (zero_concurrency_hangs (platform:=scripted) portal_uploader_namespace []
           "services.csv" true (fresh [OkBool true; OkTable three_invoices])
           (snd (startup (platform:=scripted) "services.csv" 0
                   (fresh [OkBool true; OkTable three_invoices])))
           (snd (__aenter__ (platform:=scripted) (PortalUploader true)
                   (snd (startup (platform:=scripted) "services.csv" 0
                           (fresh [OkBool true; OkTable three_invoices])))))
           three_invoices 0
           {| headless := true; playwright := true; browser := true; context := true |}).
  - vm_compute. reflexivity.
  - discriminate.
  - vm_compute. reflexivity.
Defined.

Lemma empty_table_exits_with_0_witness :
  fst (main (platform:=scripted) portal_uploader_namespace [] "services.csv" true 0
         (fresh [OkBool true;
                 OkTable {| df_columns := ["service_id"; "price"; "invoice_path"];
                            df_rows := [] |}])) <> Never /\
  (forall code,
     fst (main (platform:=scripted) portal_uploader_namespace [] "services.csv" true 0
            (fresh [OkBool true;
                    OkTable {| df_columns := ["service_id"; "price"; "invoice_path"];
                               df_rows := [] |}])) = Return code ->
     code = 0).
Proof.
  apply (empty_table_exits_with_0 (platform:=scripted) portal_uploader_namespace []
           "services.csv" true 0
           (fresh [OkBool true;
                   OkTable {| df_columns := ["service_id"; "price"; "invoice_path"];
                              df_rows := [] |}])
           {| df_columns := ["service_id"; "price"; "invoice_path"]; df_rows := [] |} 0).
  - vm_compute. reflexivity.
  - reflexivity.
Defined.

Lemma run_with_rows_never_completes_witness :
  fst (main (platform:=scripted) portal_uploader_namespace [] "services.csv" true 4
         (fresh [OkBool true; OkTable one_invoice])) <> Return 0.
Proof.
  refine (run_with_rows_never_completes (platform:=scripted) [] "services.csv" true 4
            (fresh [OkBool true; OkTable one_invoice]) one_invoice 4 _ _ 0).
  - vm_compute. reflexivity.
  - discriminate.
Defined.

(** ** The Report Assembler: counts and the output table *)

Lemma count_status_tally results c :
  n_OK (fold_left count_status results c)
  = n_OK c + Z.of_nat (length (List.filter (has_status OK) results)) /\
  n_SKIP (fold_left count_status results c)
  = n_SKIP c + Z.of_nat (length (List.filter (has_status SKIP) results)) /\
  n_ERROR (fold_left count_status results c)
  = n_ERROR c + Z.of_nat (length (List.filter (has_status ERROR) results)).
Proof.
  revert c. induction results as [|o results IH]; intros c; simpl.
  - repeat split; lia.
  - destruct (IH (count_status c o)) as (-> & -> & ->).
    unfold count_status, has_status. destruct (o_status o); simpl; repeat split; lia.
Qed.

Lemma statuses_partition (results : list outcome) :
  (length (List.filter (has_status OK) results)
   + length (List.filter (has_status SKIP) results)
   + length (List.filter (has_status ERROR) results))%nat
  = length results.
Proof.
  induction results as [|o results IH]; [reflexivity|].
  cbn [List.filter].
  assert (Hone : forall st, has_status st o = true <-> o_status o = st)
    by (intros st; unfold has_status; destruct st, (o_status o); split;
        congruence).
  destruct (has_status OK o) eqn:H1, (has_status SKIP o) eqn:H2,
    (has_status ERROR o) eqn:H3; cbn [length];
    try apply Hone in H1; try apply Hone in H2; try apply Hone in H3;
    try congruence; try lia.
  exfalso. destruct (o_status o) eqn:E.
  - assert (has_status OK o = true) by (apply Hone; reflexivity). congruence.
  - assert (has_status SKIP o = true) by (apply Hone; reflexivity). congruence.
  - assert (has_status ERROR o = true) by (apply Hone; reflexivity). congruence.
Qed.

(** The three counters of the summary partition the outcomes: each counts
    the outcomes of its status, and together they count every row once. *)
Theorem status_counts_partition (results : list outcome) :
  n_OK (fold_left count_status results {| n_OK := 0; n_SKIP := 0; n_ERROR := 0 |})
  = Z.of_nat (length (List.filter (has_status OK) results)) /\
  n_SKIP (fold_left count_status results {| n_OK := 0; n_SKIP := 0; n_ERROR := 0 |})
  = Z.of_nat (length (List.filter (has_status SKIP) results)) /\
  n_ERROR (fold_left count_status results {| n_OK := 0; n_SKIP := 0; n_ERROR := 0 |})
  = Z.of_nat (length (List.filter (has_status ERROR) results)) /\
  n_OK (fold_left count_status results {| n_OK := 0; n_SKIP := 0; n_ERROR := 0 |})
  + n_SKIP (fold_left count_status results {| n_OK := 0; n_SKIP := 0; n_ERROR := 0 |})
  + n_ERROR (fold_left count_status results {| n_OK := 0; n_SKIP := 0; n_ERROR := 0 |})
  = Z.of_nat (length results).
Proof.
  destruct (count_status_tally results {| n_OK := 0; n_SKIP := 0; n_ERROR := 0 |})
    as (Hok & Hskip & Herr).
  simpl in *. rewrite Hok, Hskip, Herr. repeat split.
  pose proof (statuses_partition results). lia.
Qed.

(** [assign] succeeds only when there is one outcome per row. *)
Lemma assign_one_per_row (df : DataFrame) results table :
  assign (fold_left append_result results
            {| rd_status := []; rd_portal_id := []; rd_error_msg := [];
               rd_processed_ts := [] |}) df = inr table ->
  length results = length (df_rows df).
Proof.
  rewrite append_result_columns. unfold assign. simpl.
  destruct (set_column "status" _ df) as [e|df1] eqn:E; [discriminate|].
  intros _. unfold set_column in E. rewrite length_fmap in E.
  destruct (Nat.eqb_spec (length results) (length (df_rows df))); [auto | discriminate].
Qed.

(** The columns of the table [assign] builds when the input has none of the
    result columns. *)
Lemma assign_columns (df : DataFrame) d table :
  (forall n, n ∈ RESULT_COLUMNS -> n ∉ df_columns df) ->
  assign d df = inr table ->
  df_columns table = df_columns df ++ RESULT_COLUMNS.
Proof.
  intros Hfresh. unfold assign, set_column.
  repeat match goal with
         | |- context [if (?a =? ?b)%nat then _ else _] =>
             destruct (a =? b)%nat; [|discriminate]
         end.
  cbn [df_columns df_rows].
  assert (H1 : "status" ∉ df_columns df) by (apply Hfresh; repeat constructor).
  assert (H2 : "portal_id" ∉ df_columns df) by (apply Hfresh; repeat constructor).
  assert (H3 : "error_msg" ∉ df_columns df) by (apply Hfresh; repeat constructor).
  assert (H4 : "processed_ts" ∉ df_columns df) by (apply Hfresh; repeat constructor).
  rewrite (bool_decide_eq_false_2 ("status" ∈ df_columns df)) by exact H1.
  rewrite (bool_decide_eq_false_2 ("portal_id" ∈ df_columns df ++ ["status"]))
    by (rewrite !elem_of_app, !elem_of_cons, !elem_of_nil; intuition discriminate).
  rewrite (bool_decide_eq_false_2
             ("error_msg" ∈ (df_columns df ++ ["status"]) ++ ["portal_id"]))
    by (rewrite !elem_of_app, !elem_of_cons, !elem_of_nil; intuition discriminate).
  rewrite (bool_decide_eq_false_2
             ("processed_ts" ∈ ((df_columns df ++ ["status"]) ++ ["portal_id"])
                               ++ ["error_msg"]))
    by (rewrite !elem_of_app, !elem_of_cons, !elem_of_nil; intuition discriminate).
  intros [= <-]. simpl. rewrite <- !app_assoc. reflexivity.
Qed.

Section OutputTable.
Context {platform : Platform}.

(** The table [report] writes is the input table with its result columns:
    one output row per input row and per outcome; every cell of an input
    column is copied unchanged; the four result cells of a row are those of
    the outcome at its position, also where the input had a column of that
    name; and the columns are the input columns followed by [status],
    [portal_id], [error_msg], [processed_ts] when the input has none of
    them. *)
Theorem output_table_extends_input (df : DataFrame) (results : list outcome)
    (s s' : state World) (code : Z) :
  report df results s = (inr code, s') ->
  exists path table,
    trace s' = trace s ++ [EvOp (to_csv path table); EvLog INFO "[SUMMARY_WRITE]";
                           EvLog INFO "[SUMMARY]"] /\
    length (df_rows table) = length (df_rows df) /\
    length results = length (df_rows df) /\
    (forall i r o,
       df_rows df !! i = Some r -> results !! i = Some o ->
       exists out,
         df_rows table !! i = Some out /\
         (forall key, key ∉ RESULT_COLUMNS -> out !! key = r !! key) /\
         out !! "status" = Some (CStr (status_str (o_status o))) /\
         out !! "portal_id" = Some (opt_cell (o_portal_id o)) /\
         out !! "error_msg" = Some (opt_cell (o_error_msg o)) /\
         out !! "processed_ts" = Some (CStr (o_processed_ts o))) /\
    ((forall n, n ∈ RESULT_COLUMNS -> n ∉ df_columns df) ->
     df_columns table = df_columns df ++ RESULT_COLUMNS).
Proof.
  intros Hreport.
  assert (Hassign : exists table,
             assign (fold_left append_result results
                       {| rd_status := []; rd_portal_id := []; rd_error_msg := [];
                          rd_processed_ts := [] |}) df = inr table).
  { unfold report in Hreport. cbv zeta in Hreport. unfold bind at 1 in Hreport.
    unfold lift at 1 in Hreport.
    destruct (assign _ df) as [e|table]; [discriminate | eauto]. }
  destruct Hassign as [table Hassign].
  pose proof (assign_one_per_row df results table Hassign) as Hlen.
  destruct (assign_rows df results Hlen) as (table' & Hassign' & Hrows).
  rewrite Hassign in Hassign'. injection Hassign' as <-.
  unfold report in Hreport. cbv zeta in Hreport. unfold bind at 1 in Hreport.
  unfold lift at 1 in Hreport. rewrite Hassign in Hreport.
  unfold bind, perform, logger, emit in Hreport. simpl in Hreport.
  destruct (driver _ (world s)) as [[e|[]] w1]; [discriminate|]. simpl in Hreport.
  eexists _, table. repeat split.
  - destruct (0 <? n_ERROR _); injection Hreport as _ <-; simpl;
      rewrite <- !app_assoc; reflexivity.
  - rewrite Hrows, length_zip_with, Hlen. lia.
  - exact Hlen.
  - intros i r o Hr Ho. exists (merge r o). rewrite Hrows.
    split; [rewrite lookup_zip_with, Hr, Ho; reflexivity|].
    unfold merge, RESULT_COLUMNS. split.
    + intros key Hkey.
      rewrite !lookup_insert_ne by (intros <-; apply Hkey; repeat constructor).
      reflexivity.
    + repeat split.
      * rewrite !lookup_insert_ne by discriminate. apply lookup_insert_eq.
      * rewrite !lookup_insert_ne by discriminate. apply lookup_insert_eq.
      * rewrite !lookup_insert_ne by discriminate. apply lookup_insert_eq.
      * apply lookup_insert_eq.
  - intros Hfresh. eapply assign_columns; eauto.
Qed.
End OutputTable.

Lemma output_table_extends_input_witness :
  exists path table,
    trace (snd (report (platform:=constant_portal 0) one_invoice
                  [{| o_status := OK; o_portal_id := Some "P-7"; o_error_msg := None;
                      o_processed_ts := "2024-05-01T12:00:00" |}] (fresh tt)))
    = trace (fresh tt) ++ [EvOp (to_csv path table); EvLog INFO "[SUMMARY_WRITE]";
                           EvLog INFO "[SUMMARY]"] /\
    length (df_rows table) = length (df_rows one_invoice) /\
    length [{| o_status := OK; o_portal_id := Some "P-7"; o_error_msg := None;
               o_processed_ts := "2024-05-01T12:00:00" |}]
    = length (df_rows one_invoice) /\
    (forall i r o,
       df_rows one_invoice !! i = Some r ->
       [{| o_status := OK; o_portal_id := Some "P-7"; o_error_msg := None;
           o_processed_ts := "2024-05-01T12:00:00" |}] !! i = Some o ->
       exists out,
         df_rows table !! i = Some out /\
         (forall key, key ∉ RESULT_COLUMNS -> out !! key = r !! key) /\
         out !! "status" = Some (CStr (status_str (o_status o))) /\
         out !! "portal_id" = Some (opt_cell (o_portal_id o)) /\
         out !! "error_msg" = Some (opt_cell (o_error_msg o)) /\
         out !! "processed_ts" = Some (CStr (o_processed_ts o))) /\
    ((forall n, n ∈ RESULT_COLUMNS -> n ∉ df_columns one_invoice) ->
     df_columns table = df_columns one_invoice ++ RESULT_COLUMNS).
Proof.
  apply (output_table_extends_input (platform:=constant_portal 0) one_invoice
           [{| o_status := OK; o_portal_id := Some "P-7"; o_error_msg := None;
               o_processed_ts := "2024-05-01T12:00:00" |}] (fresh tt)
           (snd (report (platform:=constant_portal 0) one_invoice
                   [{| o_status := OK; o_portal_id := Some "P-7"; o_error_msg := None;
                       o_processed_ts := "2024-05-01T12:00:00" |}] (fresh tt)))
           0).
  vm_compute. reflexivity.
Defined.
